(** * Research Paper Analyzer (app.py): selection store, intent classifier,
      mock generators and submit validation.

    The Streamlit script [app.py] is embedded shallowly.  Python [str]
    values are [string]; a character is read as the code point
    U+0000..U+00FF it denotes, and on this range [lower] and [isspace] are
    Python's.  Python dicts, whose iteration order is the insertion order of
    their keys, are association lists with the dict's update discipline
    (module [PyDict]).  The session state is a record that every handler
    receives and returns; the widgets of the host framework (radio,
    buttons, checkboxes, text input) form an environment read by the
    script. *)

From Stdlib Require Import Ascii NArith ZArith.
From stdpp Require Import strings list gmap.

Local Open Scope N_scope.

(** ** Python string operations used by the script *)

Module PyStr.

(** Code point of a character. *)
Definition ord (c : ascii) : N := N_of_ascii c.

(** Characters with a distinct lowercase form, U+0000..U+00FF:
    A-Z, and the Latin-1 capitals U+00C0..U+00DE apart from U+00D7. *)
Definition isupper (c : ascii) : bool :=
  let n := ord c in
  ((65 <=? n) && (n <=? 90))
  || ((192 <=? n) && (n <=? 214))
  || ((216 <=? n) && (n <=? 222)).

Definition lower_char (c : ascii) : ascii :=
  if isupper c then ascii_of_N (ord c + 32) else c.

(** [s.lower()] *)
Fixpoint lower (s : string) : string :=
  match s with
  | EmptyString => EmptyString
  | String c s' => String (lower_char c) (lower s')
  end.

(** [c.isspace()] on U+0000..U+00FF: TAB, LF, VT, FF, CR, the four
    separators U+001C..U+001F, space, NEL and NBSP. *)
Definition isspace (c : ascii) : bool :=
  let n := ord c in
  ((9 <=? n) && (n <=? 13))
  || ((28 <=? n) && (n <=? 32))
  || (n =? 133) || (n =? 160).

(** [s.lstrip()] *)
Fixpoint lstrip (s : string) : string :=
  match s with
  | EmptyString => EmptyString
  | String c s' => if isspace c then lstrip s' else s
  end.

(** [s.rstrip()]: the string empties when everything left is blank. *)
Fixpoint rstrip (s : string) : string :=
  match s with
  | EmptyString => EmptyString
  | String c s' =>
      match rstrip s' with
      | EmptyString => if isspace c then EmptyString else String c EmptyString
      | r => String c r
      end
  end.

(** [s.strip()] *)
Definition strip (s : string) : string := rstrip (lstrip s).

(** Truth value of a string: [not s] holds for the empty string only. *)
Definition truthy (s : string) : bool :=
  match s with EmptyString => false | String _ _ => true end.

(** [s.startswith(p)] *)
Fixpoint startswith (p s : string) : bool :=
  match p, s with
  | EmptyString, _ => true
  | String a p', String b s' => Ascii.eqb a b && startswith p' s'
  | String _ _, EmptyString => false
  end.

(** [p in s]: [p] starts at some position of [s]. *)
Fixpoint contains (p s : string) : bool :=
  startswith p s ||
  match s with
  | EmptyString => false
  | String _ s' => contains p s'
  end.

(** Every character is blank. *)
Fixpoint all_space (s : string) : bool :=
  match s with
  | EmptyString => true
  | String c s' => isspace c && all_space s'
  end.

End PyStr.

(** ** Insertion-ordered dictionaries *)

Module PyDict.

Section Dict.
Context {V : Type}.

(** Items in insertion order of their keys. *)
Definition dict : Type := list (string * V).

Definition empty : dict := [].

(** [d.get(k)] *)
Fixpoint get (k : string) (d : dict) : option V :=
  match d with
  | [] => None
  | (k', v') :: d' => if decide (k = k') then Some v' else get k d'
  end.

(** [d[k] = v]: an existing key keeps its place, a new key goes last. *)
Fixpoint set (k : string) (v : V) (d : dict) : dict :=
  match d with
  | [] => [(k, v)]
  | (k', v') :: d' =>
      if decide (k = k') then (k', v) :: d' else (k', v') :: set k v d'
  end.

(** [list(d)], [list(d.keys())] *)
Definition keys (d : dict) : list string := d.*1.

(** [d.items()] *)
Definition items (d : dict) : list (string * V) := d.

(** The finite map a dictionary denotes. *)
Definition view (d : dict) : gmap string V := list_to_map d.

End Dict.

Arguments dict V : clear implicits.

End PyDict.

Import PyDict.

(** ** Mock generators (app.py, lines 7-20) *)

(** The dict literal returned by [mock_structured_summary], as a record
    with one field per key. *)
Record Summary : Type := mkSummary {
  title : string;
  problem : string;
  method : string;
  results : string;
  limitations : string
}.

Definition problem_text : string :=
  "Limited generalization to out-of-distribution datasets.".
Definition method_text : string :=
  "Hybrid RAG with a transformer-based retriever and lightweight reader.".
Definition results_text : string :=
  "Up to 15% improvement on in-domain benchmarks; mixed OOD performance.".
Definition limitations_text : string :=
  "Small evaluation set; no ablation on hyperparameters.".

Definition mock_structured_summary (paper_name : string) : Summary :=
  {| title := paper_name;
     problem := problem_text;
     method := method_text;
     results := results_text;
     limitations := limitations_text |}.

(** [{p: mock_structured_summary(p) for p in papers}]: the comprehension
    stores the items one by one, from the empty dict. *)
Definition mock_comparison (papers : list string) : dict Summary :=
  foldl (fun d p => set p (mock_structured_summary p) d) empty papers.

(** ** Intent detection (app.py, lines 127-132) *)

(** [n] is [len(selected_list)]. *)
Definition comparison_intent (question : string) (n : Z) : bool :=
  let q_low := PyStr.lower question in
  let comparison_intent := false in
  let comparison_intent :=
    if (1 <? n)%Z then true else comparison_intent in
  let comparison_intent :=
    if PyStr.contains "compare" q_low || PyStr.contains "compare" question
    then true else comparison_intent in
  comparison_intent.

(** ** Selection store (app.py, lines 49-87 and 110) *)

Inductive Mode : Type := Multi | Single.

(** "Select All" (lines 60-62): [for p in paper_items: selections[p] = True] *)
Definition select_all (paper_items : list string) (selections : dict bool)
  : dict bool :=
  foldl (fun sel p => set p true sel) selections paper_items.

(** "Clear Selection" (lines 65-66): [selections = {}] *)
Definition clear_selection : dict bool := empty.

(** Single-select button (line 83): [selections = {paper: True}] *)
Definition select_single (paper : string) : dict bool := [(paper, true)].

(** Multi-mode checkbox (line 87): [selections[paper] = chk] *)
Definition toggle (paper : string) (chk : bool) (selections : dict bool)
  : dict bool :=
  set paper chk selections.

(** Line 110: [[p for p, v in selections.items() if v]] *)
Definition selected_list (selections : dict bool) : list string :=
  (filter (fun pv => pv.2 = true) (items selections)).*1.

(** *** Store actions and their traces *)

Inductive action : Type :=
| Toggle (paper : string) (chk : bool)
| SelectSingle (paper : string)
| SelectAll (paper_items : list string)
| ClearSelection.

Definition apply_action (selections : dict bool) (a : action) : dict bool :=
  match a with
  | Toggle paper chk => toggle paper chk selections
  | SelectSingle paper => select_single paper
  | SelectAll paper_items => select_all paper_items selections
  | ClearSelection => clear_selection
  end.

(** The store after a trace of actions, from the store of a new session. *)
Definition replay (acts : list action) : dict bool :=
  foldl apply_action empty acts.

(** A trace of checkbox writes only. *)
Definition toggles (ts : list (string * bool)) (selections : dict bool)
  : dict bool :=
  foldl (fun sel t => toggle t.1 t.2 sel) selections ts.

(** The value of the last write to [paper] in a trace of checkbox writes. *)
Fixpoint last_toggle (paper : string) (ts : list (string * bool))
  : option bool :=
  match ts with
  | [] => None
  | (p, chk) :: ts' =>
      match last_toggle paper ts' with
      | Some b => Some b
      | None => if decide (paper = p) then Some chk else None
      end
  end.

(** *** Two orders on the ids, both defined on the trace *)

(** [p] joins the end of [l] unless it is already listed. *)
Definition enlist (l : list string) (p : string) : list string :=
  if decide (p ∈ l) then l else l ++ [p].

(** Specification wording: "all ids currently flagged true, in the order
    they became true".  An id set true joins the end unless it is true
    already, an id set false leaves. *)
Definition became_true_step (l : list string) (a : action) : list string :=
  match a with
  | Toggle paper true => enlist l paper
  | Toggle paper false => filter (fun p => p ≠ paper) l
  | SelectSingle paper => [paper]
  | SelectAll paper_items => foldl enlist l paper_items
  | ClearSelection => []
  end.

Definition became_true_order (acts : list action) : list string :=
  foldl became_true_step [] acts.

(** The ids written since the mapping was last replaced, in the order of
    their first write, whatever the value written. *)
Definition first_write_step (l : list string) (a : action) : list string :=
  match a with
  | Toggle paper _ => enlist l paper
  | SelectSingle paper => [paper]
  | SelectAll paper_items => foldl enlist l paper_items
  | ClearSelection => []
  end.

Definition first_write_order (acts : list action) : list string :=
  foldl first_write_step [] acts.

(** ** The script as a function of the session and the widgets *)

(** [st.session_state.last_query] *)
Record LastQuery : Type := mkLastQuery {
  lq_question : string;
  lq_selected : list string;
  lq_comparison : bool
}.

(** [st.session_state]: [question] is absent until a chip sets it,
    [last_query] until a submit passes validation. *)
Record Session : Type := mkSession {
  selections : dict bool;
  question : option string;
  last_query : option LastQuery
}.

(** Lines 50-51: a new session starts with [selections = {}]. *)
Definition new_session : Session :=
  {| selections := empty; question := None; last_query := None |}.

(** What the widgets return during one run of the script.  Buttons of the
    cards are looked up by paper, chips by label; a checkbox and the text
    input receive the default value the script passes them. *)
Record Widgets : Type := mkWidgets {
  uploaded_files : list string;
  selection_mode : Mode;
  select_all_btn : bool;
  clear_btn : bool;
  single_btn : string -> bool;
  checkbox : string -> bool -> bool;
  chip_btn : string -> bool;
  text_input : string -> string;
  ask_btn : bool
}.

(** Elements written to the page that depend on the state; the static
    markup is left out and the visualization asset is opaque. *)
Inductive Element : Type :=
| Info (n : nat)                        (* line 47 *)
| WarnSelectCard                        (* line 113 *)
| ErrQuestionRequired                   (* line 116 *)
| ErrNoSelection                        (* line 122 *)
| ErrEmptyQuestion                      (* line 124 *)
| SuccessComparison                     (* line 135 *)
| Visualization                         (* line 140 *)
| JsonComparison (comp : dict Summary)  (* line 148 *)
| Review (s : Summary)                  (* lines 153-158 *)
| SuccessSingle (target : string)       (* line 163 *)
| SummaryView (summary : Summary)       (* lines 168-171 *)
| JsonSummary (summary : Summary).      (* line 174 *)

(** The output payloads of a submit. *)
Definition is_payload (e : Element) : bool :=
  match e with
  | JsonComparison _ | Review _ | SummaryView _ | JsonSummary _ => true
  | _ => false
  end.

(** Lines 97-103. *)
Definition chips : list (string * string) :=
  [ ("Summarize",
     "Summarize the selected paper(s) into Problem / Method / Results / Limitations");
    ("Compare", "Compare methods and results across selected papers");
    ("Datasets", "What datasets were used in the selected paper(s)?");
    ("Methods", "List and compare the methods used in selected paper(s).");
    ("Limitations", "What are the limitations of the selected paper(s)?") ].

(** One card (lines 77-87). *)
Definition card (w : Widgets) (sel : dict bool) (paper : string) : dict bool :=
  let selected := default false (get paper sel) in
  match selection_mode w with
  | Single => if single_btn w paper then select_single paper else sel
  | Multi => let chk := checkbox w paper selected in toggle paper chk sel
  end.

(** Lines 56-87: selection controls, then the cards in upload order (the
    guard of line 70 skips a loop over no card). *)
Definition render_selection (w : Widgets) (sel : dict bool) : dict bool :=
  let paper_items := uploaded_files w in
  let sel := if select_all_btn w then select_all paper_items sel else sel in
  let sel := if clear_btn w then clear_selection else sel in
  foldl (card w) sel paper_items.

(** Lines 104-106: a clicked chip stores its question. *)
Definition render_chips (w : Widgets) (q : option string) : option string :=
  foldl (fun q c => if chip_btn w c.1 then Some c.2 else q) q chips.

(** [not question.strip()] (lines 115 and 123) *)
Definition blank (question : string) : bool :=
  negb (PyStr.truthy (PyStr.strip question)).

(** Lines 112-116: the notices of every run, submit or not. *)
Definition notices (selected_list : list string) (question : string)
  : list Element :=
  (if bool_decide (selected_list = []) then [WarnSelectCard] else [])
  ++ (if blank question then [ErrQuestionRequired] else []).

(** Lines 134-174: the two views.  [comp[p]] and [selected_list[0]] raise
    on a missing key or an empty list; [None] stands for the exception. *)
Definition comparison_view (selected_list : list string)
  : option (list Element) :=
  let comp := mock_comparison selected_list in
  rows ← mapM (fun p => get p comp) selected_list;
  Some ([SuccessComparison; Visualization; JsonComparison comp]
        ++ (Review <$> rows)).

Definition single_view (selected_list : list string)
  : option (list Element) :=
  target ← head selected_list;
  let summary := mock_structured_summary target in
  Some [SuccessSingle target; SummaryView summary; JsonSummary summary].

(** Lines 177-181: [st.session_state.last_query = {...}] *)
Definition set_last_query (st : Session) (lq : LastQuery) : Session :=
  {| selections := selections st;
     question := question st;
     last_query := Some lq |}.

(** Lines 120-181: the body of [if ask_btn:]. *)
Definition on_ask (selected_list : list string) (question : string)
    (st : Session) : option (Session * list Element) :=
  if bool_decide (selected_list = []) then
    Some (st, [ErrNoSelection])
  else if blank question then
    Some (st, [ErrEmptyQuestion])
  else
    let ci := comparison_intent question (Z.of_nat (length selected_list)) in
    out ← (if ci then comparison_view selected_list
           else single_view selected_list);
    Some (set_last_query st {| lq_question := question;
                               lq_selected := selected_list;
                               lq_comparison := ci |},
          out).

(** The failures a submit reports, by the names of the taxonomy. *)
Inductive Failure : Type := NoSelection | EmptyQuestion.

Definition reported (out : list Element) : list Failure :=
  omap (fun e => match e with
                 | ErrNoSelection => Some NoSelection
                 | ErrEmptyQuestion => Some EmptyQuestion
                 | _ => None
                 end) out.

(** One run of the script (lines 44-181). *)
Definition run (w : Widgets) (st : Session)
  : option (Session * list Element) :=
  let paper_items := uploaded_files w in
  let info := match paper_items with
              | [] => []
              | _ => [Info (length paper_items)]
              end in
  let sel := render_selection w (selections st) in
  let q := render_chips w (question st) in
  let st1 := {| selections := sel; question := q;
                last_query := last_query st |} in
  let question := text_input w (default EmptyString q) in
  let selected_list := selected_list sel in
  let out := info ++ notices selected_list question in
  if ask_btn w then
    r ← on_ask selected_list question st1;
    Some (r.1, out ++ r.2)
  else Some (st1, out).

(** ** Card layout (app.py, lines 70-75) *)

(** [len(cols)] for [cols = st.columns(min(4, len(paper_items)))]. *)
Definition columns_count (paper_items : list string) : nat :=
  Nat.min 4 (length paper_items).

(** [i % len(cols)] and the lookup [cols[...]]: [None] stands for the
    division by zero or the index out of range. *)
Definition column_index (ncols i : nat) : option nat :=
  if (ncols =? 0)%nat then None
  else let j := (i mod ncols)%nat in
       if (j <? ncols)%nat then Some j else None.

(** The column of every card, in upload order; the guard of line 70 lays
    out nothing when no paper is uploaded. *)
Definition card_columns (paper_items : list string) : option (list nat) :=
  match paper_items with
  | [] => Some []
  | _ => mapM (column_index (columns_count paper_items))
           (seq 0 (length paper_items))
  end.

(** ** Reference definitions

    The definitions marked "specification wording" restate a sentence of
    the specification and are compared with the code above; the others
    describe what the code computes in terms of its input alone. *)

(** Two characters that are the same letter up to ASCII case. *)
Definition same_letter (a b : ascii) : Prop :=
  a = b
  \/ (65 <= PyStr.ord a <= 90 /\ PyStr.ord b = PyStr.ord a + 32)
  \/ (65 <= PyStr.ord b <= 90 /\ PyStr.ord a = PyStr.ord b + 32).

(** Two strings that are equal up to the case of their letters. *)
Inductive same_text : string -> string -> Prop :=
| same_text_nil : same_text EmptyString EmptyString
| same_text_cons a b s t :
    same_letter a b -> same_text s t -> same_text (String a s) (String b t).

(** Specification wording: "the substring [pat] (case-insensitive)
    occurs anywhere in [q]". *)
Definition occurs_ignoring_case (pat q : string) : Prop :=
  exists pre mid suf, q = pre +:+ mid +:+ suf /\ same_text mid pat.

(** The pattern is made of the letters a-z. *)
Fixpoint lowercase_letters (p : string) : bool :=
  match p with
  | EmptyString => true
  | String a p' =>
      (97 <=? PyStr.ord a) && (PyStr.ord a <=? 122) && lowercase_letters p'
  end.

(** Specification wording: "both checks are evaluated independently and
    both may be reported simultaneously"; each violated precondition
    yields its failure. *)
Definition independent_failures (selected_list : list string)
    (question : string) : list Failure :=
  (if bool_decide (selected_list = []) then [NoSelection] else [])
  ++ (if bool_decide (PyStr.strip question = EmptyString)
      then [EmptyQuestion] else []).

(** What the body of [if ask_btn:] reports: the first violated
    precondition alone. *)
Definition first_failure (selected_list : list string) (question : string)
  : list Failure :=
  if bool_decide (selected_list = []) then [NoSelection]
  else if bool_decide (PyStr.strip question = EmptyString)
       then [EmptyQuestion]
  else [].

(** A sequence without its repetitions: each id at its first occurrence. *)
Fixpoint first_occurrences (l : list string) : list string :=
  match l with
  | [] => []
  | x :: l' => x :: filter (fun y => y ≠ x) (first_occurrences l')
  end.

(** Two summaries that agree on every field but the title. *)
Definition differ_only_in_title (s1 s2 : Summary) : Prop :=
  problem s1 = problem s2 /\ method s1 = method s2
  /\ results s1 = results s2 /\ limitations s1 = limitations s2.

(** No button of the selection controls or of a card is clicked. *)
Definition no_selection_click (w : Widgets) : Prop :=
  select_all_btn w = false /\ clear_btn w = false
  /\ forall paper, single_btn w paper = false.

(** ** Scenarios *)

(** Three runs in Multi mode over the cards p1.pdf and p2.pdf: nothing
    checked, then p2.pdf checked, then p1.pdf checked as well. *)
Definition p2_then_p1 : list action :=
  [ Toggle "p1.pdf" false; Toggle "p2.pdf" false;
    Toggle "p1.pdf" false; Toggle "p2.pdf" true;
    Toggle "p1.pdf" true; Toggle "p2.pdf" true ].

(** The page with the cards p1.pdf and p2.pdf, no button clicked, the
    checkboxes and the text input as given. *)
Definition page (mode : Mode) (checked : string -> bool) (text : string)
  : Widgets :=
  {| uploaded_files := ["p1.pdf"; "p2.pdf"];
     selection_mode := mode;
     select_all_btn := false;
     clear_btn := false;
     single_btn := fun _ => false;
     checkbox := fun paper _ => checked paper;
     chip_btn := fun _ => false;
     text_input := fun _ => text;
     ask_btn := false |}.

(** The same page with one more click. *)
Definition click_single (paper : string) (w : Widgets) : Widgets :=
  {| uploaded_files := uploaded_files w;
     selection_mode := selection_mode w;
     select_all_btn := select_all_btn w;
     clear_btn := clear_btn w;
     single_btn := fun p => bool_decide (p = paper);
     checkbox := checkbox w;
     chip_btn := chip_btn w;
     text_input := text_input w;
     ask_btn := ask_btn w |}.

Definition click_ask (w : Widgets) : Widgets :=
  {| uploaded_files := uploaded_files w;
     selection_mode := selection_mode w;
     select_all_btn := select_all_btn w;
     clear_btn := clear_btn w;
     single_btn := single_btn w;
     checkbox := checkbox w;
     chip_btn := chip_btn w;
     text_input := text_input w;
     ask_btn := true |}.

(** A session in which both cards are selected. *)
Definition both_selected : Session :=
  {| selections := [("p1.pdf", true); ("p2.pdf", true)];
     question := None;
     last_query := None |}.

(** The same page with a chip, "Clear Selection" or "Select All"
    clicked. *)
Definition click_chip (label : string) (w : Widgets) : Widgets :=
  {| uploaded_files := uploaded_files w;
     selection_mode := selection_mode w;
     select_all_btn := select_all_btn w;
     clear_btn := clear_btn w;
     single_btn := single_btn w;
     checkbox := checkbox w;
     chip_btn := fun l => bool_decide (l = label);
     text_input := text_input w;
     ask_btn := ask_btn w |}.

Definition click_clear (w : Widgets) : Widgets :=
  {| uploaded_files := uploaded_files w;
     selection_mode := selection_mode w;
     select_all_btn := select_all_btn w;
     clear_btn := true;
     single_btn := single_btn w;
     checkbox := checkbox w;
     chip_btn := chip_btn w;
     text_input := text_input w;
     ask_btn := ask_btn w |}.

Definition click_select_all (w : Widgets) : Widgets :=
  {| uploaded_files := uploaded_files w;
     selection_mode := selection_mode w;
     select_all_btn := true;
     clear_btn := clear_btn w;
     single_btn := single_btn w;
     checkbox := checkbox w;
     chip_btn := chip_btn w;
     text_input := text_input w;
     ask_btn := ask_btn w |}.

(** * Properties *)

(** ** Strings *)

Section StringFacts.

Import PyStr.

Lemma ord_inj a b : ord a = ord b -> a = b.
Proof.
  unfold ord. intros H.
  rewrite <- (ascii_N_embedding a), <- (ascii_N_embedding b). by rewrite H.
Qed.

Lemma ord_ascii_of_N n : n < 256 -> ord (ascii_of_N n) = n.
Proof. apply N_ascii_embedding. Qed.

Lemma ord_bounded a : ord a < 256.
Proof. apply N_ascii_bounded. Qed.

Lemma isupper_cases c :
  isupper c = true <->
  65 <= ord c <= 90 \/ 192 <= ord c <= 214 \/ 216 <= ord c <= 222.
Proof.
  unfold isupper. rewrite !orb_true_iff, !andb_true_iff, !N.leb_le. tauto.
Qed.

(** Lowering a character yields the letter [a] of a-z exactly for [a]
    itself and for its capital. *)
Lemma lower_char_letter c a :
  97 <= ord a <= 122 -> lower_char c = a <-> same_letter c a.
Proof.
  intros Ha. unfold lower_char, same_letter.
  pose proof (ord_bounded c) as Hc.
  destruct (isupper c) eqn:Hu.
  - apply isupper_cases in Hu. split.
    + intros <-. rewrite ord_ascii_of_N in Ha |- * by lia.
      right; left. lia.
    + intros [-> | [[Hr He] | [Hr He]]]; [lia | | lia].
      apply ord_inj. rewrite ord_ascii_of_N by lia. lia.
  - assert (~ (65 <= ord c <= 90)) as Hn.
    { intros H. assert (isupper c = true) as E by (apply isupper_cases; auto).
      congruence. }
    split; [by left |].
    intros [-> | [[Hr He] | [Hr He]]]; [done | lia | lia].
Qed.

Lemma same_letter_refl a : same_letter a a.
Proof. by left. Qed.

Lemma same_text_refl s : same_text s s.
Proof. induction s; constructor; auto using same_letter_refl. Qed.

Lemma eqb_ascii_true a b : Ascii.eqb a b = true <-> a = b.
Proof. apply Ascii.eqb_eq. Qed.

Lemma startswith_spec p s :
  startswith p s = true <-> exists suf, s = p +:+ suf.
Proof.
  revert s. induction p as [| a p IH]; intros s; simpl.
  - split; [eauto | done].
  - destruct s as [| b s].
    + split; [done | intros [suf H]; discriminate].
    + rewrite andb_true_iff, eqb_ascii_true, IH. split.
      * intros [-> [suf ->]]. eauto.
      * intros [suf [= -> ->]]. eauto.
Qed.

Lemma contains_spec p s :
  contains p s = true <-> exists pre suf, s = pre +:+ p +:+ suf.
Proof.
  induction s as [| b s IH].
  - simpl. rewrite orb_false_r, startswith_spec. split.
    + intros [suf H]. by exists EmptyString, suf.
    + intros [pre [suf H]]. destruct pre; [eauto | discriminate].
  - cbn [contains]. rewrite orb_true_iff, startswith_spec, IH. split.
    + intros [[suf H] | [pre [suf H]]].
      * by exists EmptyString, suf.
      * exists (String b pre), suf. simpl. by rewrite H.
    + intros [[| c pre] [suf H]]; simpl in H.
      * left. eauto.
      * right. injection H as -> ->. eauto.
Qed.

(** A prefix of the lowered question is the pattern exactly when a
    prefix of the question is the pattern up to case. *)
Lemma startswith_lower p q :
  lowercase_letters p = true ->
  startswith p (lower q) = true <->
  exists mid suf, q = mid +:+ suf /\ same_text mid p.
Proof.
  revert q. induction p as [| a p IH]; intros q Hp.
  - simpl. split; [| done]. intros _.
    exists EmptyString, q. split; [done | constructor].
  - simpl in Hp. rewrite !andb_true_iff, !N.leb_le in Hp.
    destruct Hp as [Ha Hp]. destruct q as [| c q]; simpl.
    + split; [done |]. intros [mid [suf [H Hs]]].
      inversion Hs; subst. discriminate.
    + rewrite andb_true_iff, eqb_ascii_true, (IH q Hp). split.
      * intros [Hc [mid [suf [-> Hs]]]]. symmetry in Hc.
        apply lower_char_letter in Hc; [| lia].
        exists (String c mid), suf. split; [done | by constructor].
      * intros [mid [suf [H Hs]]]. inversion Hs; subst.
        simpl in H. injection H as -> ->. split; [| eauto].
        symmetry. apply lower_char_letter; [lia | done].
Qed.

Lemma contains_lower p q :
  lowercase_letters p = true ->
  contains p (lower q) = true <-> occurs_ignoring_case p q.
Proof.
  intros Hp. unfold occurs_ignoring_case.
  induction q as [| c q IH].
  - simpl. rewrite orb_false_r.
    rewrite (startswith_lower p EmptyString Hp). split.
    + intros [mid [suf [H Hs]]]. by exists EmptyString, mid, suf.
    + intros [pre [mid [suf [H Hs]]]].
      destruct pre; [| discriminate].
      exists mid, suf. split; [exact H | exact Hs].
  - cbn [lower contains]. rewrite orb_true_iff, IH.
    change (String (lower_char c) (lower q)) with (lower (String c q)).
    rewrite (startswith_lower p (String c q) Hp). split.
    + intros [[mid [suf [H Hs]]] | [pre [mid [suf [H Hs]]]]].
      * by exists EmptyString, mid, suf.
      * exists (String c pre), mid, suf. simpl. by rewrite H.
    + intros [[| d pre] [mid [suf [H Hs]]]].
      * left. exists mid, suf. split; [exact H | exact Hs].
      * right. injection H as -> ->. eauto.
Qed.

(** An exact occurrence is an occurrence up to case. *)
Lemma contains_occurs p q :
  contains p q = true -> occurs_ignoring_case p q.
Proof.
  rewrite contains_spec. intros [pre [suf ->]].
  exists pre, p, suf. split; [done | apply same_text_refl].
Qed.

Lemma lstrip_blank s : lstrip s = EmptyString <-> all_space s = true.
Proof.
  induction s as [| c s IH]; simpl; [done |].
  destruct (isspace c); simpl; [done |]. split; discriminate.
Qed.

Lemma rstrip_blank s : rstrip s = EmptyString <-> all_space s = true.
Proof.
  induction s as [| c s IH]; simpl; [done |].
  destruct (rstrip s) eqn:E.
  - destruct (isspace c); simpl; [tauto | split; discriminate].
  - rewrite andb_true_iff. split; [discriminate |].
    intros [_ H]. apply IH in H. discriminate.
Qed.

Lemma lstrip_all_space s : all_space (lstrip s) = all_space s.
Proof.
  induction s as [| c s IH]; simpl; [done |].
  destruct (isspace c) eqn:E; simpl; [done | by rewrite E].
Qed.

(** [not question.strip()] holds exactly when every character of the
    question is whitespace. *)
Lemma blank_all_space s : blank s = all_space s.
Proof.
  unfold blank, strip. rewrite <- (lstrip_all_space s).
  destruct (rstrip (lstrip s)) eqn:E; simpl.
  - symmetry. by apply rstrip_blank.
  - destruct (all_space (lstrip s)) eqn:F; [| done].
    apply rstrip_blank in F. congruence.
Qed.

Lemma blank_strip s : blank s = bool_decide (strip s = EmptyString).
Proof. unfold blank. by destruct (strip s). Qed.

End StringFacts.

(** ** Dictionaries *)

Section DictFacts.
Context {V : Type}.
Implicit Types (d : dict V) (k : string) (v : V).

Lemma get_set k' k v d :
  get k' (set k v d) = if decide (k' = k) then Some v else get k' d.
Proof.
  induction d as [| [k0 v0] d IH]; simpl.
  - by repeat case_decide.
  - destruct (decide (k = k0)) as [-> | Hne]; simpl.
    + by repeat case_decide.
    + rewrite IH. repeat case_decide; congruence.
Qed.

Lemma get_set_eq k v d : get k (set k v d) = Some v.
Proof. rewrite get_set. by case_decide. Qed.

Lemma get_set_ne k' k v d : k' ≠ k -> get k' (set k v d) = get k' d.
Proof. intros H. rewrite get_set. by case_decide. Qed.

(** A store writes the key at its place, or last when it is new. *)
Lemma keys_set k v d : keys (set k v d) = enlist (keys d) k.
Proof.
  unfold keys, enlist. induction d as [| [k0 v0] d IH]; csimpl; [done |].
  destruct (decide (k = k0)) as [-> | Hne]; csimpl.
  - rewrite decide_True; [done | left].
  - rewrite IH. destruct (decide (k ∈ d.*1)) as [Hin | Hin].
    + rewrite decide_True; [done | by right].
    + rewrite decide_False; [done |].
      rewrite elem_of_cons. tauto.
Qed.

Lemma get_None k d : get k d = None <-> k ∉ keys d.
Proof.
  unfold keys. induction d as [| [k0 v0] d IH]; csimpl.
  - split; [intros _; apply not_elem_of_nil | done].
  - rewrite not_elem_of_cons. case_decide; [| tauto].
    split; [done | tauto].
Qed.

Lemma get_elem_of k v d : NoDup (keys d) -> get k d = Some v <-> (k, v) ∈ d.
Proof.
  unfold keys. induction d as [| [k0 v0] d IH]; csimpl; intros Hnd.
  - split; [done | intros H; by apply elem_of_nil in H].
  - apply NoDup_cons in Hnd as [Hk0 Hnd]. rewrite elem_of_cons.
    case_decide as Hk.
    + subst k0. split; [intros [= ->]; by left |].
      intros [[= ->] | Hin]; [done |].
      exfalso. apply Hk0. apply list_elem_of_fmap. by exists (k, v).
    + rewrite (IH Hnd). split; [tauto |].
      intros [[= -> ->] | Hin]; [done | tauto].
Qed.

(** The dictionary denotes a finite map, read by [get] and updated by
    [set]. *)
Lemma view_get k d : view d !! k = get k d.
Proof.
  unfold view. induction d as [| [k0 v0] d IH]; simpl.
  - apply lookup_empty.
  - case_decide as Hk.
    + subst. apply lookup_insert_eq.
    + rewrite lookup_insert_ne by done. apply IH.
Qed.

Lemma view_set k v d : view (set k v d) = <[k:=v]> (view d).
Proof.
  apply map_eq. intros i. rewrite view_get, get_set, lookup_insert.
  rewrite view_get. repeat case_decide; congruence.
Qed.

End DictFacts.

(** ** Lists of ids *)

Lemma elem_of_enlist (l : list string) p x : x ∈ enlist l p <-> x ∈ l \/ x = p.
Proof.
  unfold enlist. case_decide as H.
  - split; [tauto |]. intros [? | ->]; done.
  - rewrite elem_of_app, list_elem_of_singleton. tauto.
Qed.

Lemma NoDup_enlist (l : list string) p : NoDup l -> NoDup (enlist l p).
Proof.
  intros H. unfold enlist. case_decide as Hin; [done |].
  apply NoDup_app. split_and!; [done | | apply NoDup_singleton].
  intros x Hx Hp. apply list_elem_of_singleton in Hp. by subst.
Qed.

Lemma elem_of_foldl_enlist (ps l : list string) x :
  x ∈ foldl enlist l ps <-> x ∈ l \/ x ∈ ps.
Proof.
  revert l. induction ps as [| p ps IH]; intros l; simpl.
  - rewrite elem_of_nil. tauto.
  - rewrite IH, elem_of_enlist, elem_of_cons. tauto.
Qed.

Lemma NoDup_foldl_enlist (ps l : list string) :
  NoDup l -> NoDup (foldl enlist l ps).
Proof.
  revert l. induction ps as [| p ps IH]; intros l H; simpl; [done |].
  by apply IH, NoDup_enlist.
Qed.

(** Filtering by two predicates that agree on the members of the list. *)
Lemma filter_agree {A} (P Q : A -> Prop) `{!forall x, Decision (P x)}
    `{!forall x, Decision (Q x)} (l : list A) :
  (forall x, x ∈ l -> P x <-> Q x) -> filter P l = filter Q l.
Proof.
  induction l as [| a l IH]; intros Hpq; [done |].
  rewrite !filter_cons. rewrite IH.
  - assert (P a <-> Q a) as Ha by (apply Hpq; left).
    repeat case_decide; tauto || done.
  - intros x Hx. apply Hpq. by right.
Qed.

Lemma filter_all {A} (P : A -> Prop) `{!forall x, Decision (P x)} (l : list A) :
  (forall x, x ∈ l -> P x) -> filter P l = l.
Proof.
  induction l as [| a l IH]; intros Hp; [done |].
  rewrite filter_cons_True by (apply Hp; left).
  rewrite IH; [done |]. intros x Hx. apply Hp. by right.
Qed.

(** Enlisting a sequence keeps the list and appends the first
    occurrences of the ids it lacks. *)
Lemma foldl_enlist_first_occurrences (ps l : list string) :
  foldl enlist l ps = l ++ filter (fun y => y ∉ l) (first_occurrences ps).
Proof.
  revert l. induction ps as [| p ps IH]; intros l; simpl.
  - by rewrite filter_nil, app_nil_r.
  - rewrite IH. unfold enlist. rewrite filter_cons.
    destruct (decide (p ∈ l)) as [Hin | Hin].
    + rewrite decide_False by tauto. f_equal.
      rewrite list_filter_filter. apply list_filter_iff.
      intros x. split; [| tauto]. intros Hx. split; [done |]. by intros ->.
    + rewrite decide_True by done. rewrite <- app_assoc. simpl. do 2 f_equal.
      rewrite list_filter_filter. apply list_filter_iff. intros x.
      rewrite not_elem_of_app, list_elem_of_singleton. tauto.
Qed.

Lemma first_occurrences_NoDup (l : list string) :
  NoDup l -> first_occurrences l = l.
Proof.
  induction l as [| x l IH]; intros H; simpl; [done |].
  apply NoDup_cons in H as [Hx H]. rewrite (IH H). f_equal.
  apply filter_all. intros y Hy ->. done.
Qed.

(** ** Selection store *)

Lemma get_select_all x (paper_items : list string) (sel : dict bool) :
  get x (select_all paper_items sel)
  = if decide (x ∈ paper_items) then Some true else get x sel.
Proof.
  unfold select_all. revert sel.
  induction paper_items as [| p ps IH]; intros sel; cbn [foldl].
  - rewrite decide_False; [done | apply not_elem_of_nil].
  - rewrite IH, get_set. destruct (decide (x ∈ ps)) as [Hin | Hin].
    + rewrite decide_True; [done | by right].
    + destruct (decide (x = p)) as [-> | Hne].
      * rewrite decide_True; [done | left].
      * rewrite decide_False; [done |]. rewrite elem_of_cons. tauto.
Qed.

Lemma keys_select_all (paper_items : list string) (sel : dict bool) :
  keys (select_all paper_items sel) = foldl enlist (keys sel) paper_items.
Proof.
  unfold select_all. revert sel.
  induction paper_items as [| p ps IH]; intros sel; simpl; [done |].
  by rewrite IH, keys_set.
Qed.

Lemma get_toggles x (ts : list (string * bool)) (sel : dict bool) :
  get x (toggles ts sel)
  = match last_toggle x ts with Some b => Some b | None => get x sel end.
Proof.
  unfold toggles. revert sel.
  induction ts as [| [p chk] ts IH]; intros sel; simpl; [done |].
  rewrite IH. destruct (last_toggle x ts); [done |].
  unfold toggle. simpl. rewrite get_set. by case_decide.
Qed.

Lemma NoDup_keys_toggles (ts : list (string * bool)) (sel : dict bool) :
  NoDup (keys sel) -> NoDup (keys (toggles ts sel)).
Proof.
  unfold toggles. revert sel.
  induction ts as [| [p chk] ts IH]; intros sel H; simpl; [done |].
  apply IH. unfold toggle. rewrite keys_set. by apply NoDup_enlist.
Qed.

Lemma keys_apply_action (sel : dict bool) (a : action) :
  keys (apply_action sel a) = first_write_step (keys sel) a.
Proof.
  destruct a as [p chk | p | ps |]; simpl.
  - apply keys_set.
  - done.
  - apply keys_select_all.
  - done.
Qed.

Lemma keys_foldl_apply_action (acts : list action) (sel : dict bool) :
  keys (foldl apply_action sel acts) = foldl first_write_step (keys sel) acts.
Proof.
  revert sel. induction acts as [| a acts IH]; intros sel; simpl; [done |].
  by rewrite IH, keys_apply_action.
Qed.

(** The keys of the store are the ids written since it was last replaced,
    in the order of their first write. *)
Lemma keys_replay (acts : list action) :
  keys (replay acts) = first_write_order acts.
Proof. apply keys_foldl_apply_action. Qed.

Lemma NoDup_first_write_step (l : list string) (a : action) :
  NoDup l -> NoDup (first_write_step l a).
Proof.
  intros H. destruct a as [p chk | p | ps |]; simpl.
  - by apply NoDup_enlist.
  - apply NoDup_singleton.
  - by apply NoDup_foldl_enlist.
  - apply NoDup_nil_2.
Qed.

Lemma NoDup_first_write_order (acts : list action) :
  NoDup (first_write_order acts).
Proof.
  unfold first_write_order.
  induction acts as [| a acts IH] using rev_ind; simpl.
  - apply NoDup_nil_2.
  - rewrite foldl_snoc. by apply NoDup_first_write_step.
Qed.

(** No key occurs twice in a reachable store. *)
Lemma NoDup_keys_replay (acts : list action) : NoDup (keys (replay acts)).
Proof. rewrite keys_replay. apply NoDup_first_write_order. Qed.

(** The comprehension of line 110 walks the keys in dict order and keeps
    those whose flag is true. *)
Lemma selected_list_filter (sel : dict bool) :
  NoDup (keys sel) ->
  selected_list sel = filter (fun p => get p sel = Some true) (keys sel).
Proof.
  unfold selected_list, items, keys.
  induction sel as [| [k v] sel IH]; csimpl; intros Hnd; [done |].
  apply NoDup_cons in Hnd as [Hk Hnd].
  rewrite !filter_cons.
  assert (filter (fun p => (if decide (p = k) then Some v else get p sel)
                           = Some true) sel.*1
          = filter (fun p => get p sel = Some true) sel.*1) as ->.
  { apply filter_agree. intros x Hx.
    rewrite decide_False; [done |]. by intros ->. }
  rewrite <- (IH Hnd). rewrite (decide_True (P := k = k)) by done.
  by destruct v.
Qed.

Lemma elem_of_selected_list (sel : dict bool) p :
  NoDup (keys sel) -> p ∈ selected_list sel <-> get p sel = Some true.
Proof.
  intros Hnd. rewrite selected_list_filter by done.
  rewrite list_elem_of_filter. split; [tauto |].
  intros H. split; [done |].
  destruct (decide (p ∈ keys sel)) as [Hin | Hin]; [done |].
  apply get_None in Hin. congruence.
Qed.

Lemma NoDup_selected_list (sel : dict bool) :
  NoDup (keys sel) -> NoDup (selected_list sel).
Proof.
  intros Hnd. rewrite selected_list_filter by done. by apply NoDup_filter.
Qed.

(** The ids listed in the order they became true are the ids whose flag is
    true; one step of the trace keeps this. *)
Lemma became_true_step_tracks (l : list string) (sel : dict bool) (a : action) :
  NoDup l -> (forall p, p ∈ l <-> get p sel = Some true) ->
  NoDup (became_true_step l a)
  /\ forall p, p ∈ became_true_step l a
               <-> get p (apply_action sel a) = Some true.
Proof.
  intros Hnd Hl. destruct a as [q [|] | q | ps |]; simpl.
  - split; [by apply NoDup_enlist |]. intros p.
    unfold toggle. rewrite elem_of_enlist, get_set, Hl.
    case_decide; [intuition congruence | tauto].
  - split; [by apply NoDup_filter |]. intros p.
    unfold toggle. rewrite list_elem_of_filter, get_set, Hl.
    case_decide; [intuition congruence | tauto].
  - split; [apply NoDup_singleton |]. intros p.
    rewrite list_elem_of_singleton. case_decide; intuition congruence.
  - split; [by apply NoDup_foldl_enlist |]. intros p.
    rewrite elem_of_foldl_enlist, get_select_all, Hl.
    case_decide; [intuition congruence | tauto].
  - split; [apply NoDup_nil_2 |]. intros p.
    rewrite elem_of_nil. intuition congruence.
Qed.

Lemma became_true_order_tracks (acts : list action) :
  NoDup (became_true_order acts)
  /\ forall p, p ∈ became_true_order acts <-> get p (replay acts) = Some true.
Proof.
  unfold became_true_order, replay.
  induction acts as [| a acts [Hnd Hl]] using rev_ind.
  - split; [apply NoDup_nil_2 |]. intros p. simpl.
    rewrite elem_of_nil. intuition congruence.
  - rewrite !foldl_snoc. by apply became_true_step_tracks.
Qed.

(** ** Mock comparison *)

Section Comprehension.
Context {V : Type} (f : string -> V).

Lemma get_comprehension x (ps : list string) (d : dict V) :
  get x (foldl (fun d p => set p (f p) d) d ps)
  = if decide (x ∈ ps) then Some (f x) else get x d.
Proof.
  revert d. induction ps as [| p ps IH]; intros d; cbn [foldl].
  - rewrite decide_False; [done | apply not_elem_of_nil].
  - rewrite IH, get_set. destruct (decide (x ∈ ps)) as [Hin | Hin].
    + rewrite decide_True; [done | by right].
    + destruct (decide (x = p)) as [-> | Hne].
      * rewrite decide_True; [done | left].
      * rewrite decide_False; [done |]. rewrite elem_of_cons. tauto.
Qed.

Lemma keys_comprehension (ps : list string) (d : dict V) :
  keys (foldl (fun d p => set p (f p) d) d ps) = foldl enlist (keys d) ps.
Proof.
  revert d. induction ps as [| p ps IH]; intros d; simpl; [done |].
  by rewrite IH, keys_set.
Qed.

(** A key the dict lacks is stored last. *)
Lemma set_fresh k v (d : dict V) : k ∉ keys d -> set k v d = d ++ [(k, v)].
Proof.
  unfold keys. induction d as [| [k0 v0] d IH]; csimpl; intros H; [done |].
  apply not_elem_of_cons in H as [Hne H].
  rewrite decide_False by done. by rewrite IH.
Qed.

Lemma comprehension_NoDup (ps : list string) (d : dict V) :
  NoDup ps -> (forall p, p ∈ ps -> p ∉ keys d) ->
  foldl (fun d p => set p (f p) d) d ps = d ++ ((fun p => (p, f p)) <$> ps).
Proof.
  revert d. induction ps as [| p ps IH]; intros d Hnd Hd; csimpl.
  - by rewrite app_nil_r.
  - apply NoDup_cons in Hnd as [Hp Hnd].
    rewrite set_fresh by (apply Hd; left).
    rewrite IH; [by rewrite <- app_assoc | done |].
    intros x Hx. unfold keys. rewrite fmap_app, not_elem_of_app. split.
    + apply Hd. by right.
    + csimpl. rewrite list_elem_of_singleton. by intros ->.
Qed.

End Comprehension.

Lemma get_mock_comparison x (papers : list string) :
  get x (mock_comparison papers)
  = if decide (x ∈ papers) then Some (mock_structured_summary x) else None.
Proof. unfold mock_comparison. by rewrite get_comprehension. Qed.

Lemma keys_mock_comparison (papers : list string) :
  keys (mock_comparison papers) = first_occurrences papers.
Proof.
  unfold mock_comparison.
  rewrite keys_comprehension, foldl_enlist_first_occurrences. simpl.
  apply filter_all. intros y _. apply not_elem_of_nil.
Qed.

Lemma mock_comparison_NoDup (papers : list string) :
  NoDup papers ->
  mock_comparison papers
  = (fun p => (p, mock_structured_summary p)) <$> papers.
Proof.
  intros H. unfold mock_comparison.
  rewrite comprehension_NoDup; [done | done |].
  intros p _. apply not_elem_of_nil.
Qed.

(** ** The submit handler never raises *)

Lemma mapM_total {A B} (f : A -> option B) (g : A -> B) (l : list A) :
  (forall x, x ∈ l -> f x = Some (g x)) -> mapM f l = Some (g <$> l).
Proof.
  intros H. apply mapM_Some. induction l as [| a l IH]; csimpl.
  - constructor.
  - constructor; [apply H; left |]. apply IH. intros x Hx. apply H. by right.
Qed.

Lemma comparison_view_total (selected_list : list string) :
  comparison_view selected_list
  = Some ([SuccessComparison; Visualization;
           JsonComparison (mock_comparison selected_list)]
          ++ (Review <$> (mock_structured_summary <$> selected_list))).
Proof.
  unfold comparison_view.
  rewrite (mapM_total _ mock_structured_summary); [done |].
  intros x Hx. rewrite get_mock_comparison. by rewrite decide_True.
Qed.

Lemma single_view_total p (rest : list string) :
  single_view (p :: rest)
  = Some [SuccessSingle p; SummaryView (mock_structured_summary p);
          JsonSummary (mock_structured_summary p)].
Proof. done. Qed.

Lemma on_ask_total (selected_list : list string) (q : string) (st : Session) :
  is_Some (on_ask selected_list q st).
Proof.
  unfold on_ask. case_bool_decide as Hsl; [done |].
  destruct (blank q); [done |].
  destruct (comparison_intent q _).
  - by rewrite comparison_view_total.
  - destruct selected_list as [| p rest]; [done |].
    by rewrite single_view_total.
Qed.

Lemma run_total (w : Widgets) (st : Session) : is_Some (run w st).
Proof.
  unfold run. destruct (ask_btn w); [| done].
  destruct (on_ask_total
              (selected_list (render_selection w (selections st)))
              (text_input w (default EmptyString
                               (render_chips w (question st))))
              {| selections := render_selection w (selections st);
                 question := render_chips w (question st);
                 last_query := last_query st |}) as [r ->].
  done.
Qed.

(** ** Rendering the cards *)

Lemma cards_single_idle (w : Widgets) (papers : list string) (sel : dict bool) :
  selection_mode w = Single ->
  (forall paper, single_btn w paper = false) ->
  foldl (card w) sel papers = sel.
Proof.
  intros Hm Hb. revert sel.
  induction papers as [| p ps IH]; intros sel; simpl; [done |].
  rewrite IH. unfold card. by rewrite Hm, Hb.
Qed.

Lemma cards_single_click (w : Widgets) (papers : list string) (sel : dict bool)
    paper :
  selection_mode w = Single ->
  (forall p, single_btn w p = true <-> p = paper) ->
  foldl (card w) sel papers
  = if decide (paper ∈ papers) then select_single paper else sel.
Proof.
  intros Hm Hb. revert sel.
  induction papers as [| p ps IH]; intros sel; cbn [foldl].
  - rewrite decide_False; [done | apply not_elem_of_nil].
  - rewrite IH. unfold card. rewrite Hm.
    destruct (decide (paper ∈ ps)) as [Hps | Hps].
    + rewrite decide_True; [done | by right].
    + destruct (single_btn w p) eqn:E.
      * apply Hb in E as ->. rewrite decide_True; [done | left].
      * rewrite decide_False; [done |]. rewrite elem_of_cons.
        intros [-> | Hin]; [| done].
        assert (single_btn w p = true) as E' by by apply Hb.
        congruence.
Qed.

Lemma render_selection_single_idle (w : Widgets) (sel : dict bool) :
  selection_mode w = Single -> no_selection_click w ->
  render_selection w sel = sel.
Proof.
  intros Hm (Ha & Hc & Hb). unfold render_selection.
  rewrite Ha, Hc. by apply cards_single_idle.
Qed.

Lemma render_selection_single_click (w : Widgets) (sel : dict bool) paper :
  selection_mode w = Single ->
  (forall p, single_btn w p = true <-> p = paper) ->
  paper ∈ uploaded_files w ->
  render_selection w sel = select_single paper.
Proof.
  intros Hm Hb Hin. unfold render_selection.
  rewrite (cards_single_click w _ _ paper Hm Hb). by rewrite decide_True.
Qed.

(** In Multi mode every card writes the value of its checkbox. *)
Lemma cards_multi (w : Widgets) (papers : list string) (sel : dict bool) :
  selection_mode w = Multi ->
  foldl (card w) sel papers
  = foldl (fun s p => toggle p (checkbox w p (default false (get p s))) s)
      sel papers.
Proof.
  intros Hm. revert sel.
  induction papers as [| p ps IH]; intros sel; simpl; [done |].
  rewrite IH. unfold card. by rewrite Hm.
Qed.

(** * The claims *)

(** ** Intent classifier *)

Example classify_compare_x_and_y :
  comparison_intent "compare X and Y" 1 = true.
Proof. reflexivity. Qed.

Example classify_summarize : comparison_intent "summarize" 1 = false.
Proof. reflexivity. Qed.

Example classify_anything_three : comparison_intent "anything" 3 = true.
Proof. reflexivity. Qed.

Example classify_capital_compare : comparison_intent "Compare" 1 = true.
Proof. reflexivity. Qed.

Example classify_mixed_case : comparison_intent "please comPARe them" 0 = true.
Proof. reflexivity. Qed.

(** C1. The intent is a function of the question string and of the
    selected count alone: for every question [q] and every integer [n] it
    is true exactly when [n > 1] or "compare" occurs somewhere in [q] up to
    the case of its letters, and it is false in every other case. *)
Theorem comparison_intent_iff (q : string) (n : Z) :
  (comparison_intent q n = true
   <-> (n > 1)%Z \/ occurs_ignoring_case "compare" q)
  /\ (comparison_intent q n = false
      <-> ~ ((n > 1)%Z \/ occurs_ignoring_case "compare" q)).
Proof.
  assert (comparison_intent q n = true
          <-> (n > 1)%Z \/ occurs_ignoring_case "compare" q) as Hiff.
  { unfold comparison_intent.
    destruct (PyStr.contains "compare" (PyStr.lower q)) eqn:Hlow; simpl.
    - split; [| done]. intros _. right. by apply contains_lower.
    - destruct (PyStr.contains "compare" q) eqn:Hraw; simpl.
      + split; [| done]. intros _. right. by apply contains_occurs.
      + destruct (1 <? n)%Z eqn:Hn.
        * apply Z.ltb_lt in Hn. split; [| done]. intros _. left. lia.
        * apply Z.ltb_ge in Hn. split; [done |].
          intros [Hgt | Hocc]; [lia |].
          apply contains_lower in Hocc; [congruence | done]. }
  split; [exact Hiff |].
  rewrite <- Hiff. by destruct (comparison_intent q n).
Qed.

(** ** Mock summary generator *)

(** C10. In every summary the generator produces, the title is the paper
    identifier it was given and the problem, method, results and
    limitations are fixed texts that do not depend on the identifier; so
    the summaries of two distinct identifiers agree on every field except
    the title, which differs. *)
Theorem mock_structured_summary_fields (id1 id2 : string) :
  title (mock_structured_summary id1) = id1
  /\ problem (mock_structured_summary id1) = problem_text
  /\ method (mock_structured_summary id1) = method_text
  /\ results (mock_structured_summary id1) = results_text
  /\ limitations (mock_structured_summary id1) = limitations_text
  /\ differ_only_in_title
       (mock_structured_summary id1) (mock_structured_summary id2)
  /\ (id1 ≠ id2 ->
      title (mock_structured_summary id1)
      ≠ title (mock_structured_summary id2)).
Proof. by repeat split. Qed.

Lemma mock_structured_summary_fields_witness :
  title (mock_structured_summary "p1.pdf")
  ≠ title (mock_structured_summary "p2.pdf").
Proof.
  destruct (mock_structured_summary_fields "p1.pdf" "p2.pdf")
    as (_ & _ & _ & _ & _ & _ & Hne).
  apply Hne. discriminate.
Defined.

(** ** Selection store *)

(** C6. "Select All" sets the flag of every id of the given sequence to
    true and leaves the flag of every id outside the sequence as it was,
    whatever the selection before: it adds to the selection and resets
    nothing. *)
Theorem select_all_additive (ids : list string) (sel : dict bool) (x : string) :
  (x ∈ ids -> get x (select_all ids sel) = Some true)
  /\ (x ∉ ids -> get x (select_all ids sel) = get x sel).
Proof.
  rewrite get_select_all. split; intros H.
  - by rewrite decide_True.
  - by rewrite decide_False.
Qed.

Lemma select_all_additive_witness :
  get "p1.pdf" (select_all ["p1.pdf"; "p2.pdf"] [("p3.pdf", true)]) = Some true
  /\ get "p3.pdf" (select_all ["p1.pdf"; "p2.pdf"] [("p3.pdf", true)])
     = get "p3.pdf" [("p3.pdf", true)].
Proof.
  split.
  - apply (select_all_additive ["p1.pdf"; "p2.pdf"] [("p3.pdf", true)]
             "p1.pdf").
    compute_done.
  - apply (select_all_additive ["p1.pdf"; "p2.pdf"] [("p3.pdf", true)]
             "p3.pdf").
    compute_done.
Defined.

(** C4. A single-select replaces the whole selection mapping by
    [{id: True}]; for any selection before and any [a ≠ b], selecting [a]
    and then [b] leaves [b] as the one selected id, and no other id is
    selected. *)
Theorem select_single_replaces (sel : dict bool) (a b : string) :
  a ≠ b ->
  apply_action sel (SelectSingle a) = [(a, true)]
  /\ selected_list
       (apply_action (apply_action sel (SelectSingle a)) (SelectSingle b))
     = [b]
  /\ forall x,
       get x (apply_action (apply_action sel (SelectSingle a))
                (SelectSingle b)) = Some true
       <-> x = b.
Proof.
  intros _. split_and!; [done | done |].
  intros x. simpl. case_decide; intuition congruence.
Qed.

Lemma select_single_replaces_witness :
  selected_list
    (apply_action
       (apply_action [("p1.pdf", true); ("p2.pdf", true); ("p3.pdf", false)]
          (SelectSingle "p1.pdf"))
       (SelectSingle "p2.pdf"))
  = ["p2.pdf"].
Proof.
  apply (select_single_replaces
           [("p1.pdf", true); ("p2.pdf", true); ("p3.pdf", false)]
           "p1.pdf" "p2.pdf").
  discriminate.
Defined.

(** The last write to an id is found among the writes to that id alone. *)
Lemma last_toggle_own (paper : string) (ts : list (string * bool)) :
  last_toggle paper ts = last_toggle paper (filter (fun t => t.1 = paper) ts).
Proof.
  induction ts as [| [q c] ts IH]; [done |].
  rewrite filter_cons. simpl. destruct (decide (q = paper)) as [-> | Hne].
  - simpl. by rewrite <- IH.
  - rewrite <- IH. destruct (last_toggle paper ts); [done |].
    rewrite decide_False; [done | congruence].
Qed.

Lemma elem_of_selected_toggles (acts : list action) (ts : list (string * bool))
    (p : string) :
  p ∈ selected_list (toggles ts (replay acts))
  <-> last_toggle p ts = Some true
      \/ (last_toggle p ts = None /\ p ∈ selected_list (replay acts)).
Proof.
  rewrite !elem_of_selected_list
    by auto using NoDup_keys_toggles, NoDup_keys_replay.
  rewrite get_toggles. destruct (last_toggle p ts); intuition congruence.
Qed.

(** C7. In Multi mode a checkbox write sets the flag of its id to the
    value written and leaves the flag of every other id as it was.  So
    after any sequence of such writes the selected ids are exactly the ids
    whose last write was true, and whether an id is selected depends on
    the writes to that id alone, wherever the writes to other ids fall. *)
Theorem toggle_last_write_wins :
  (forall paper chk sel other,
      get paper (toggle paper chk sel) = Some chk
      /\ (other ≠ paper -> get other (toggle paper chk sel) = get other sel))
  /\ (forall ts p,
        p ∈ selected_list (toggles ts empty) <-> last_toggle p ts = Some true)
  /\ (forall ts p,
        last_toggle p ts = last_toggle p (filter (fun t => t.1 = p) ts))
  /\ (forall acts ts p,
        p ∈ selected_list (toggles ts (replay acts))
        <-> last_toggle p ts = Some true
            \/ (last_toggle p ts = None /\ p ∈ selected_list (replay acts))).
Proof.
  split_and!.
  - intros paper chk sel other. unfold toggle. split.
    + apply get_set_eq.
    + apply get_set_ne.
  - intros ts p. rewrite (elem_of_selected_toggles [] ts p).
    change (selected_list (replay [])) with (@nil string).
    rewrite elem_of_nil. tauto.
  - intros ts p. apply last_toggle_own.
  - apply elem_of_selected_toggles.
Qed.

Lemma toggle_last_write_wins_witness :
  get "p2.pdf" (toggle "p1.pdf" false [("p1.pdf", true); ("p2.pdf", true)])
  = get "p2.pdf" [("p1.pdf", true); ("p2.pdf", true)].
Proof.
  destruct toggle_last_write_wins as (Hframe & _).
  apply (Hframe "p1.pdf" false [("p1.pdf", true); ("p2.pdf", true)] "p2.pdf").
  discriminate.
Defined.

Example toggles_scenario :
  selected_list
    (toggles [("a", true); ("b", true); ("a", false); ("c", false); ("a", true);
              ("b", false)] empty)
  = ["a"].
Proof. reflexivity. Qed.

(** *** Order of the selected ids *)

(** The three runs of [p2_then_p1], as the script performs them. *)
Example p2_then_p1_runs :
  render_selection (page Multi (fun _ => true) EmptyString)
    (render_selection
       (page Multi (fun p => bool_decide (p = "p2.pdf")) EmptyString)
       (render_selection (page Multi (fun _ => false) EmptyString) empty))
  = replay p2_then_p1.
Proof. reflexivity. Qed.

(** C3, as stated, fails: p2.pdf became true before p1.pdf, and the
    selected list still names p1.pdf first. *)
Lemma selected_list_not_became_true_order :
  selected_list (replay p2_then_p1) = ["p1.pdf"; "p2.pdf"]
  /\ became_true_order p2_then_p1 = ["p2.pdf"; "p1.pdf"]
  /\ selected_list (replay p2_then_p1) ≠ became_true_order p2_then_p1.
Proof. split_and!; [reflexivity | reflexivity | discriminate]. Qed.

(** C3, amended. In every reachable store the selected list holds
    exactly the ids whose flag is true, each once; its order is the order
    in which the ids were first written into the mapping since the mapping
    was last replaced, whatever value was written then, so it is a
    rearrangement of the order in which the ids became true.  The
    comparison keeps this order. *)
Theorem selected_list_first_write_order (acts : list action) :
  (forall p, p ∈ selected_list (replay acts)
             <-> get p (replay acts) = Some true)
  /\ NoDup (selected_list (replay acts))
  /\ selected_list (replay acts)
     = filter (fun p => get p (replay acts) = Some true)
         (first_write_order acts)
  /\ selected_list (replay acts) ≡ₚ became_true_order acts
  /\ keys (mock_comparison (selected_list (replay acts)))
     = selected_list (replay acts).
Proof.
  pose proof (NoDup_keys_replay acts) as Hnd.
  destruct (became_true_order_tracks acts) as [Hbt Hin].
  split_and!.
  - intros p. by apply elem_of_selected_list.
  - by apply NoDup_selected_list.
  - rewrite <- keys_replay. by apply selected_list_filter.
  - apply NoDup_Permutation; [by apply NoDup_selected_list | done |].
    intros p. rewrite Hin. by apply elem_of_selected_list.
  - rewrite keys_mock_comparison.
    by apply first_occurrences_NoDup, NoDup_selected_list.
Qed.

(** ** Mock comparison *)

(** C8, as stated, fails on a sequence that names an id twice: the
    mapping holds the id once. *)
Lemma mock_comparison_repeated_id :
  keys (mock_comparison ["p1.pdf"; "p2.pdf"; "p1.pdf"]) = ["p1.pdf"; "p2.pdf"]
  /\ keys (mock_comparison ["p1.pdf"; "p2.pdf"; "p1.pdf"])
     ≠ ["p1.pdf"; "p2.pdf"; "p1.pdf"].
Proof. split; [reflexivity | discriminate]. Qed.

(** C8, amended. The summary of an id is a function of the id, and the
    comparison maps each id of the sequence to its summary and no other
    id.  The keys iterate in the order of the first occurrence of each id;
    for a sequence without repeated ids, as every selected list is, the
    mapping lists the ids with their summaries in the order of the
    sequence. *)
Theorem mock_comparison_first_occurrences (ids : list string) :
  (forall id1 id2, id1 = id2 ->
                   mock_structured_summary id1 = mock_structured_summary id2)
  /\ (forall id, id ∈ ids ->
                 get id (mock_comparison ids)
                 = Some (mock_structured_summary id))
  /\ (forall id, id ∉ ids -> get id (mock_comparison ids) = None)
  /\ keys (mock_comparison ids) = first_occurrences ids
  /\ (NoDup ids ->
      items (mock_comparison ids)
      = (fun id => (id, mock_structured_summary id)) <$> ids
      /\ keys (mock_comparison ids) = ids).
Proof.
  split_and!.
  - by intros id1 id2 ->.
  - intros id Hin. rewrite get_mock_comparison. by rewrite decide_True.
  - intros id Hin. rewrite get_mock_comparison. by rewrite decide_False.
  - apply keys_mock_comparison.
  - intros Hnd. split.
    + by apply mock_comparison_NoDup.
    + rewrite keys_mock_comparison. by apply first_occurrences_NoDup.
Qed.

Lemma mock_comparison_first_occurrences_witness :
  keys (mock_comparison ["p2.pdf"; "p1.pdf"]) = ["p2.pdf"; "p1.pdf"]
  /\ get "p1.pdf" (mock_comparison ["p2.pdf"; "p1.pdf"])
     = Some (mock_structured_summary "p1.pdf")
  /\ get "p3.pdf" (mock_comparison ["p2.pdf"; "p1.pdf"]) = None
  /\ mock_structured_summary "p1.pdf" = mock_structured_summary "p1.pdf".
Proof.
  destruct (mock_comparison_first_occurrences ["p2.pdf"; "p1.pdf"])
    as (Hdet & Hin & Hout & _ & Hnd).
  split_and!.
  - apply Hnd. compute_done.
  - apply Hin. compute_done.
  - apply Hout. compute_done.
  - apply Hdet. reflexivity.
Defined.

(** The order given to the comparison is kept even when the ids were
    selected in the other order. *)
Example compare_keeps_given_order :
  keys (mock_comparison ["a"; "b"]) = ["a"; "b"]
  /\ selected_list (replay [Toggle "b" true; Toggle "a" true]) = ["b"; "a"].
Proof. split; reflexivity. Qed.

(** ** Submit *)

Lemma reported_review (rows : list Summary) : reported (Review <$> rows) = [].
Proof. induction rows as [| s rows IH]; [done |]. csimpl. exact IH. Qed.

Lemma reported_app (out1 out2 : list Element) :
  reported (out1 ++ out2) = reported out1 ++ reported out2.
Proof. unfold reported. apply omap_app. Qed.

(** A submit that passes validation reports no failure and records the
    query. *)
Lemma on_ask_passes (selected_list : list string) (q : string) (st : Session) :
  selected_list ≠ [] -> blank q = false ->
  exists out,
    on_ask selected_list q st
    = Some (set_last_query st
              {| lq_question := q;
                 lq_selected := selected_list;
                 lq_comparison :=
                   comparison_intent q (Z.of_nat (length selected_list)) |},
            out)
    /\ reported out = []
    /\ Exists (fun e => is_payload e = true) out.
Proof.
  intros Hsl Hq. unfold on_ask.
  rewrite bool_decide_eq_false_2 by done. rewrite Hq.
  destruct (comparison_intent q _).
  - rewrite comparison_view_total. eexists. split; [done |]. split.
    + rewrite reported_app. simpl. apply reported_review.
    + do 2 apply Exists_cons_tl. by apply Exists_cons_hd.
  - destruct selected_list as [| p rest]; [done |].
    rewrite single_view_total. eexists. split; [done |]. split; [done |].
    apply Exists_cons_tl. by apply Exists_cons_hd.
Qed.

(** C2, as stated, fails: with nothing selected and a blank question the
    submit reports the missing selection and not the empty question. *)
Lemma submit_reports_no_selection_alone :
  on_ask [] "  " new_session = Some (new_session, [ErrNoSelection])
  /\ reported [ErrNoSelection] = [NoSelection]
  /\ independent_failures [] "  " = [NoSelection; EmptyQuestion]
  /\ reported [ErrNoSelection] ≠ independent_failures [] "  ".
Proof. split_and!; [reflexivity | reflexivity | reflexivity | discriminate]. Qed.

(** C2, amended. On submit the two checks run in sequence: the selection
    is checked first and the question only when at least one id is
    selected, so a submit reports the first violated precondition alone,
    and the missing selection when both are violated.  The two notices
    shown on every run, one for an empty selection and one for a blank
    question, are evaluated independently of each other. *)
Theorem submit_reports_first_failure (selected_list : list string)
    (q : string) (st : Session) :
  exists st' out,
    on_ask selected_list q st = Some (st', out)
    /\ reported out = first_failure selected_list q
    /\ (WarnSelectCard ∈ notices selected_list q <-> selected_list = [])
    /\ (ErrQuestionRequired ∈ notices selected_list q
        <-> PyStr.strip q = EmptyString).
Proof.
  assert ((WarnSelectCard ∈ notices selected_list q <-> selected_list = [])
          /\ (ErrQuestionRequired ∈ notices selected_list q
              <-> PyStr.strip q = EmptyString)) as Hnotices.
  { unfold notices. rewrite blank_strip.
    do 2 case_bool_decide; simpl; split;
      rewrite ?elem_of_cons, ?elem_of_nil; intuition congruence. }
  unfold first_failure. rewrite <- blank_strip.
  destruct (decide (selected_list = [])) as [-> | Hsl].
  - exists st, [ErrNoSelection]. by split.
  - rewrite bool_decide_eq_false_2 by done.
    destruct (blank q) eqn:Hq.
    + exists st, [ErrEmptyQuestion]. split; [| by split].
      unfold on_ask. rewrite bool_decide_eq_false_2 by done. by rewrite Hq.
    + destruct (on_ask_passes selected_list q st Hsl Hq) as (out & Hr & Hrep & _).
      eexists _, out. by split.
Qed.

Lemma on_ask_blocked (selected_list : list string) (q : string)
    (st : Session) :
  selected_list = [] \/ PyStr.strip q = EmptyString ->
  on_ask selected_list q st = Some (st, [ErrNoSelection])
  \/ on_ask selected_list q st = Some (st, [ErrEmptyQuestion]).
Proof.
  intros Hblocked. unfold on_ask.
  destruct (decide (selected_list = [])) as [-> | Hsl]; [by left |].
  destruct Hblocked as [? | Hq]; [done |].
  rewrite bool_decide_eq_false_2 by done.
  rewrite blank_strip, bool_decide_eq_true_2 by done. by right.
Qed.

(** C5. A submit blocked by a validation failure, for a missing selection
    or for a question that is blank once trimmed, produces no output
    payload and leaves the session, its last-query record included,
    exactly as it was. *)
Theorem blocked_submit_keeps_session (selected_list : list string)
    (q : string) (st : Session) :
  selected_list = [] \/ PyStr.strip q = EmptyString ->
  exists out,
    on_ask selected_list q st = Some (st, out)
    /\ Forall (fun e => is_payload e = false) out
    /\ reported out ≠ [].
Proof.
  intros Hblocked.
  destruct (on_ask_blocked selected_list q st Hblocked) as [-> | ->];
    eexists; (split_and!; [done | by repeat constructor | done]).
Qed.

Lemma blocked_submit_keeps_session_witness :
  exists out,
    on_ask [] "What are the limitations?"
      (set_last_query both_selected
         {| lq_question := "Summarize";
            lq_selected := ["p1.pdf"];
            lq_comparison := false |})
    = Some (set_last_query both_selected
              {| lq_question := "Summarize";
                 lq_selected := ["p1.pdf"];
                 lq_comparison := false |},
            out)
    /\ Forall (fun e => is_payload e = false) out
    /\ reported out ≠ [].
Proof.
  apply (blocked_submit_keeps_session [] "What are the limitations?").
  left. reflexivity.
Defined.

(** ** One run of the script *)

Lemma on_ask_keeps_store (selected_list : list string) (q : string)
    (st st' : Session) (out : list Element) :
  on_ask selected_list q st = Some (st', out) ->
  selections st' = selections st /\ question st' = question st.
Proof.
  unfold on_ask. case_bool_decide; [by intros [= <- _] |].
  destruct (blank q); [by intros [= <- _] |].
  destruct (if comparison_intent q _ then _ else _); simpl; [| done].
  by intros [= <- _].
Qed.

Lemma run_selections (w : Widgets) (st st' : Session) (out : list Element) :
  run w st = Some (st', out) ->
  selections st' = render_selection w (selections st).
Proof.
  unfold run. destruct (ask_btn w); [| by intros [= <- _]].
  destruct (on_ask _ _ _) as [[st1 out1] |] eqn:Hask; simpl; [| done].
  intros [= <- _]. by apply on_ask_keeps_store in Hask as [-> _].
Qed.

(** A blocked submit, seen from the whole run: the last-query record is
    the one of the session before and the page carries no payload. *)
Lemma run_blocked_submit (w : Widgets) (st : Session) :
  ask_btn w = true ->
  selected_list (render_selection w (selections st)) = []
  \/ PyStr.strip (text_input w (default EmptyString
                                  (render_chips w (question st))))
     = EmptyString ->
  exists st' out,
    run w st = Some (st', out)
    /\ last_query st' = last_query st
    /\ Forall (fun e => is_payload e = false) out.
Proof.
  intros Hask Hblocked. unfold run. rewrite Hask.
  edestruct on_ask_blocked as [-> | ->]; [exact Hblocked | |];
    simpl; (eexists _, _; split_and!; [done | done |]);
    (apply Forall_app; split; [| by repeat constructor]);
    apply Forall_app; split.
  all: try (destruct (uploaded_files w); by repeat constructor).
  all: unfold notices; apply Forall_app;
    split; [case_bool_decide | destruct (blank _)]; by repeat constructor.
Qed.

(** C9. Switching the mode to Single does not by itself change the
    selection: a run in Single mode with no selection button clicked
    leaves the mapping, and so a selection of several ids, as it was; the
    selection collapses with the next click on a single-select button, to
    the id of that card alone. *)
Theorem single_mode_keeps_selection (w : Widgets) (st : Session) :
  selection_mode w = Single ->
  (no_selection_click w ->
   exists st' out,
     run w st = Some (st', out)
     /\ selections st' = selections st
     /\ selected_list (selections st') = selected_list (selections st))
  /\ (forall paper,
        (forall p, single_btn w p = true <-> p = paper) ->
        paper ∈ uploaded_files w ->
        exists st' out,
          run w st = Some (st', out)
          /\ selections st' = select_single paper
          /\ selected_list (selections st') = [paper]).
Proof.
  intros Hm. destruct (run_total w st) as [[st' out] Hrun].
  pose proof (run_selections _ _ _ _ Hrun) as Hsel. split.
  - intros Hidle. exists st', out.
    rewrite render_selection_single_idle in Hsel by done.
    split_and!; [done | done | by rewrite Hsel].
  - intros paper Hb Hin. exists st', out.
    rewrite (render_selection_single_click w _ paper) in Hsel by done.
    split_and!; [done | done | by rewrite Hsel].
Qed.

Lemma single_mode_keeps_selection_witness :
  (exists st' out,
      run (page Single (fun _ => false) "Summarize") both_selected
      = Some (st', out)
      /\ selections st' = selections both_selected
      /\ selected_list (selections st') = ["p1.pdf"; "p2.pdf"])
  /\ (exists st' out,
         run (click_single "p2.pdf" (page Single (fun _ => false) "Summarize"))
           both_selected
         = Some (st', out)
         /\ selections st' = select_single "p2.pdf"
         /\ selected_list (selections st') = ["p2.pdf"]).
Proof.
  split.
  - apply (single_mode_keeps_selection
             (page Single (fun _ => false) "Summarize") both_selected).
    + reflexivity.
    + split_and!; [reflexivity | reflexivity | intros paper; reflexivity].
  - apply (single_mode_keeps_selection
             (click_single "p2.pdf" (page Single (fun _ => false) "Summarize"))
             both_selected).
    + reflexivity.
    + intros p. simpl. apply bool_decide_eq_true.
    + compute_done.
Defined.

(** The end-to-end scenarios. *)
Example submit_two_selected :
  fst <$> run (click_ask (page Multi (fun _ => true)
                            "What are the limitations?")) new_session
  = Some {| selections := [("p1.pdf", true); ("p2.pdf", true)];
            question := None;
            last_query :=
              Some {| lq_question := "What are the limitations?";
                      lq_selected := ["p1.pdf"; "p2.pdf"];
                      lq_comparison := true |} |}.
Proof. reflexivity. Qed.

Example submit_one_selected :
  run (click_ask (page Multi (fun p => bool_decide (p = "p1.pdf")) "Summarize"))
    new_session
  = Some ({| selections := [("p1.pdf", true); ("p2.pdf", false)];
             question := None;
             last_query :=
               Some {| lq_question := "Summarize";
                       lq_selected := ["p1.pdf"];
                       lq_comparison := false |} |},
          [Info 2; SuccessSingle "p1.pdf";
           SummaryView (mock_structured_summary "p1.pdf");
           JsonSummary (mock_structured_summary "p1.pdf")]).
Proof. reflexivity. Qed.

Example submit_none_selected :
  run (click_ask (page Multi (fun _ => false) "Summarize")) new_session
  = Some ({| selections := [("p1.pdf", false); ("p2.pdf", false)];
             question := None;
             last_query := None |},
          [Info 2; WarnSelectCard; ErrNoSelection]).
Proof. reflexivity. Qed.

Example submit_nothing_valid :
  run (click_ask (page Multi (fun _ => false) "  ")) new_session
  = Some ({| selections := [("p1.pdf", false); ("p2.pdf", false)];
             question := None;
             last_query := None |},
          [Info 2; WarnSelectCard; ErrQuestionRequired; ErrNoSelection]).
Proof. reflexivity. Qed.

(** * Further properties of the script *)

(** ** Questions *)

Lemma isupper_false_letter b : 97 <= PyStr.ord b <= 122 -> PyStr.isupper b = false.
Proof.
  intros Hb. destruct (PyStr.isupper b) eqn:E; [| done].
  apply isupper_cases in E. lia.
Qed.

Lemma same_letter_lower a b :
  same_letter a b -> PyStr.lower_char a = PyStr.lower_char b.
Proof.
  assert (forall x y, 65 <= PyStr.ord x <= 90 ->
                      PyStr.ord y = PyStr.ord x + 32 ->
                      PyStr.lower_char x = PyStr.lower_char y) as Hcap.
  { intros x y Hx Hy. unfold PyStr.lower_char.
    rewrite (isupper_false_letter y) by lia.
    assert (PyStr.isupper x = true) as -> by (apply isupper_cases; lia).
    apply ord_inj. rewrite ord_ascii_of_N by lia. lia. }
  intros [-> | [[Hr He] | [Hr He]]]; [done | by apply Hcap |].
  symmetry. by apply Hcap.
Qed.

Lemma same_text_lower q1 q2 : same_text q1 q2 -> PyStr.lower q1 = PyStr.lower q2.
Proof.
  induction 1 as [| a b s t Hab _ IH]; simpl; [done |].
  by rewrite IH, (same_letter_lower a b Hab).
Qed.

Lemma comparison_intent_lowered (q : string) (n : Z) :
  comparison_intent q n
  = ((1 <? n)%Z || PyStr.contains "compare" (PyStr.lower q)).
Proof.
  unfold comparison_intent.
  destruct (PyStr.contains "compare" (PyStr.lower q)) eqn:Hlow; simpl.
  - by rewrite orb_true_r.
  - rewrite orb_false_r. simpl.
    destruct (PyStr.contains "compare" q) eqn:Hraw;
      [| by destruct (1 <? n)%Z].
    apply contains_occurs, contains_lower in Hraw; [congruence | done].
Qed.

(** X1. The test of the raw question in line 131 never decides the
    intent: the intent is the count test or the test of the lowered
    question. *)
Theorem comparison_intent_raw_test_redundant (q : string) (n : Z) :
  comparison_intent q n
  = ((1 <? n)%Z || PyStr.contains "compare" (PyStr.lower q))
  /\ (PyStr.contains "compare" q = true
      -> PyStr.contains "compare" (PyStr.lower q) = true).
Proof.
  split; [apply comparison_intent_lowered |].
  intros Hraw. by apply contains_lower, contains_occurs.
Qed.

Lemma comparison_intent_raw_test_redundant_witness :
  PyStr.contains "compare" (PyStr.lower "compare a and b") = true.
Proof.
  apply (comparison_intent_raw_test_redundant "compare a and b" 1).
  reflexivity.
Defined.

(** X2. Two questions that differ only in the case of their letters get
    the same intent, for every selected count. *)
Theorem comparison_intent_ignores_case (q1 q2 : string) (n : Z) :
  same_text q1 q2 -> comparison_intent q1 n = comparison_intent q2 n.
Proof.
  intros H. rewrite !comparison_intent_lowered.
  by rewrite (same_text_lower q1 q2 H).
Qed.

Lemma comparison_intent_ignores_case_witness :
  comparison_intent "Co" 1 = comparison_intent "cO" 1.
Proof.
  apply (comparison_intent_ignores_case "Co" "cO" 1).
  constructor; [right; left; vm_compute; split; [split |]; congruence |].
  constructor; [right; right; vm_compute; split; [split |]; congruence |].
  constructor.
Defined.

(** X3. The question counts as empty exactly when each of its characters
    is whitespace, the empty question included; one other character
    anywhere makes it pass. *)
Theorem blank_whitespace_only (q : string) :
  blank q = true
  <-> Forall (fun c => PyStr.isspace c = true) (String.list_ascii_of_string q).
Proof.
  rewrite blank_all_space. induction q as [| c q IH]; simpl.
  - split; [constructor | done].
  - rewrite andb_true_iff, Forall_cons, IH. done.
Qed.

(** ** Chips *)

Lemma button_only (btn : string -> bool) (label : string) :
  (forall l, btn l = true <-> l = label) ->
  forall l, btn l = bool_decide (l = label).
Proof.
  intros Hb l. case_bool_decide as Hl.
  - by apply Hb.
  - destruct (btn l) eqn:E; [| done]. by apply Hb in E.
Qed.

(** X4. A run in which one chip is clicked stores the question of that
    chip in the session, whatever question was stored before; a run in
    which no chip is clicked leaves the stored question as it was. *)
Theorem render_chips_click (w : Widgets) (q : option string) :
  (forall label text,
      (forall l, chip_btn w l = true <-> l = label) ->
      (label, text) ∈ chips ->
      render_chips w q = Some text)
  /\ ((forall l, chip_btn w l = false) -> render_chips w q = q).
Proof.
  split.
  - intros label text Hb Hin. unfold render_chips, chips. simpl.
    rewrite !(button_only _ _ Hb).
    repeat (apply elem_of_cons in Hin as [[= -> ->] | Hin]; [reflexivity |]).
    by apply elem_of_nil in Hin.
  - intros Hb. unfold render_chips, chips. simpl. by rewrite !Hb.
Qed.

Lemma render_chips_click_witness :
  render_chips
    (click_chip "Datasets" (page Multi (fun _ => false) EmptyString))
    (Some "Summarize")
  = Some "What datasets were used in the selected paper(s)?".
Proof.
  destruct (render_chips_click
              (click_chip "Datasets" (page Multi (fun _ => false) EmptyString))
              (Some "Summarize")) as [Hclick _].
  apply (Hclick "Datasets").
  - intros l. simpl. apply bool_decide_eq_true.
  - compute_done.
Defined.

(** X5. No chip fills in a question that counts as empty, and with one
    paper selected the chips Compare and Methods, and no other chip, lead
    to the comparison view. *)
Theorem chips_intent (label text : string) (n : Z) :
  (label, text) ∈ chips ->
  blank text = false
  /\ (comparison_intent text n = true
      <-> (n > 1)%Z \/ label = "Compare" \/ label = "Methods").
Proof.
  intros Hin. rewrite comparison_intent_lowered, orb_true_iff, Z.ltb_lt.
  unfold chips in Hin.
  repeat (apply elem_of_cons in Hin as [[= -> ->] | Hin];
          [split; [reflexivity |];
           vm_compute PyStr.contains; intuition (lia || congruence) |]).
  by apply elem_of_nil in Hin.
Qed.

Lemma chips_intent_witness :
  blank "List and compare the methods used in selected paper(s)." = false
  /\ (comparison_intent
        "List and compare the methods used in selected paper(s)." 1 = true
      <-> (1 > 1)%Z \/ "Methods" = "Compare" \/ "Methods" = "Methods").
Proof.
  apply (chips_intent "Methods"). compute_done.
Defined.

(** ** One run of the script, continued *)

(** X6. The text typed into the question field is never written to the
    session: after a run the stored question is the one the chips leave,
    and with no chip clicked it is the question stored before. *)
Theorem run_question_from_chips (w : Widgets) (st st' : Session)
    (out : list Element) :
  run w st = Some (st', out) ->
  question st' = render_chips w (question st)
  /\ ((forall l, chip_btn w l = false) -> question st' = question st).
Proof.
  intros Hrun.
  assert (question st' = render_chips w (question st)) as Hq.
  { revert Hrun. unfold run. destruct (ask_btn w); [| by intros [= <- _]].
    destruct (on_ask _ _ _) as [[st1 out1] |] eqn:Hask; simpl; [| done].
    intros [= <- _]. by apply on_ask_keeps_store in Hask as [_ ->]. }
  split; [done |]. intros Hb. rewrite Hq.
  unfold render_chips, chips. simpl. by rewrite !Hb.
Qed.

Lemma run_question_from_chips_witness :
  question
    {| selections := [("p1.pdf", false); ("p2.pdf", false)];
       question := Some "Summarize";
       last_query := None |}
  = Some "Summarize".
Proof.
  eapply (run_question_from_chips
            (page Multi (fun _ => false) "typed by hand")
            {| selections := empty; question := Some "Summarize";
               last_query := None |}).
  - reflexivity.
  - intros l. reflexivity.
Defined.




(** ** Dispatch of a valid submit *)

(** X9. With two or more ids selected, a submit with any question that is
    not blank shows the comparison view: the visualization, the
    comparison of the selected ids and one review per selected id, in the
    order of the selected list; the record of the query carries the
    comparison flag. *)
Theorem submit_many_compares (selected_list : list string) (q : string)
    (st : Session) :
  (2 <= length selected_list)%nat -> blank q = false ->
  on_ask selected_list q st
  = Some (set_last_query st
            {| lq_question := q;
               lq_selected := selected_list;
               lq_comparison := true |},
          [SuccessComparison; Visualization;
           JsonComparison (mock_comparison selected_list)]
          ++ (Review <$> (mock_structured_summary <$> selected_list))).
Proof.
  intros Hlen Hq. unfold on_ask.
  rewrite bool_decide_eq_false_2 by (intros ->; simpl in Hlen; lia).
  rewrite Hq, comparison_intent_lowered.
  assert ((1 <? Z.of_nat (length selected_list))%Z = true) as ->
    by (apply Z.ltb_lt; lia).
  simpl. by rewrite comparison_view_total.
Qed.

Lemma submit_many_compares_witness :
  on_ask ["p1.pdf"; "p2.pdf"] "What are the limitations?" new_session
  = Some (set_last_query new_session
            {| lq_question := "What are the limitations?";
               lq_selected := ["p1.pdf"; "p2.pdf"];
               lq_comparison := true |},
          [SuccessComparison; Visualization;
           JsonComparison (mock_comparison ["p1.pdf"; "p2.pdf"])]
          ++ (Review <$> (mock_structured_summary <$> ["p1.pdf"; "p2.pdf"]))).
Proof.
  apply (submit_many_compares ["p1.pdf"; "p2.pdf"]
           "What are the limitations?" new_session).
  - simpl. lia.
  - reflexivity.
Defined.

(** X10. The single-paper view appears only when exactly one id is
    selected and the question does not name a comparison: its target is
    then the whole selection, and the record of the query carries no
    comparison flag. *)
Theorem single_view_one_selected (selected_list : list string) (q : string)
    (st st' : Session) (out : list Element) (target : string) :
  on_ask selected_list q st = Some (st', out) ->
  SuccessSingle target ∈ out ->
  selected_list = [target]
  /\ ~ occurs_ignoring_case "compare" q
  /\ out = [SuccessSingle target;
            SummaryView (mock_structured_summary target);
            JsonSummary (mock_structured_summary target)]
  /\ last_query st' = Some {| lq_question := q;
                              lq_selected := [target];
                              lq_comparison := false |}.
Proof.
  unfold on_ask. case_bool_decide as Hsl.
  { intros [= _ <-] Hin. apply list_elem_of_singleton in Hin. done. }
  destruct (blank q).
  { intros [= _ <-] Hin. apply list_elem_of_singleton in Hin. done. }
  destruct (comparison_intent q _) eqn:Hci.
  - rewrite comparison_view_total. simpl. intros [= _ <-] Hin.
    repeat (apply elem_of_cons in Hin as [? | Hin]; [done |]).
    apply list_elem_of_fmap in Hin as (s & ? & _). done.
  - rewrite comparison_intent_lowered in Hci.
    apply orb_false_iff in Hci as [Hn Hlow]. apply Z.ltb_ge in Hn.
    destruct selected_list as [| p [| p' rest]];
      [done | | simpl in Hn; lia].
    simpl. intros [= <- <-] Hin.
    apply elem_of_cons in Hin as [[= ->] | Hin].
    + split_and!; [done | | done | done].
      intros Hocc. apply contains_lower in Hocc; [congruence | done].
    + repeat (apply elem_of_cons in Hin as [? | Hin]; [done |]).
      by apply elem_of_nil in Hin.
Qed.

Lemma single_view_one_selected_witness :
  ["p1.pdf"] = ["p1.pdf"]
  /\ ~ occurs_ignoring_case "compare" "Summarize"
  /\ [SuccessSingle "p1.pdf"; SummaryView (mock_structured_summary "p1.pdf");
      JsonSummary (mock_structured_summary "p1.pdf")]
     = [SuccessSingle "p1.pdf";
        SummaryView (mock_structured_summary "p1.pdf");
        JsonSummary (mock_structured_summary "p1.pdf")]
  /\ last_query
       (set_last_query new_session
          {| lq_question := "Summarize"; lq_selected := ["p1.pdf"];
             lq_comparison := false |})
     = Some {| lq_question := "Summarize"; lq_selected := ["p1.pdf"];
               lq_comparison := false |}.
Proof.
  apply (single_view_one_selected ["p1.pdf"] "Summarize" new_session).
  - reflexivity.
  - left.
Defined.

(** ** Entries of the comparison *)

Lemma elem_of_first_occurrences (l : list string) x :
  x ∈ first_occurrences l <-> x ∈ l.
Proof.
  pose proof (foldl_enlist_first_occurrences l []) as H. simpl in H.
  rewrite filter_all in H by (intros ? _; apply not_elem_of_nil).
  rewrite <- H, elem_of_foldl_enlist, elem_of_nil. tauto.
Qed.

Lemma NoDup_first_occurrences (l : list string) : NoDup (first_occurrences l).
Proof.
  pose proof (foldl_enlist_first_occurrences l []) as H. simpl in H.
  rewrite filter_all in H by (intros ? _; apply not_elem_of_nil).
  rewrite <- H. apply NoDup_foldl_enlist, NoDup_nil_2.
Qed.

(** X13. Whatever sequence of ids it is given, repeated ids included,
    the comparison holds each id once, an entry belongs to it exactly
    when its key is an id of the sequence and its value the summary of
    that key, and so the title of every entry is its key; it never holds
    more entries than the sequence has ids. *)
Theorem mock_comparison_entries (ids : list string) :
  NoDup (keys (mock_comparison ids))
  /\ (forall k s, (k, s) ∈ items (mock_comparison ids)
                  <-> k ∈ ids /\ s = mock_structured_summary k)
  /\ (forall k s, (k, s) ∈ items (mock_comparison ids) -> title s = k)
  /\ (length (mock_comparison ids) <= length ids)%nat.
Proof.
  assert (NoDup (keys (mock_comparison ids))) as Hnd
    by (rewrite keys_mock_comparison; apply NoDup_first_occurrences).
  assert (forall k s, (k, s) ∈ items (mock_comparison ids)
                      <-> k ∈ ids /\ s = mock_structured_summary k) as Hin.
  { intros k s. unfold items. rewrite <- (get_elem_of k s _ Hnd).
    rewrite get_mock_comparison. case_decide; intuition congruence. }
  split_and!; [done | done | |].
  - intros k s Hks. apply Hin in Hks as [_ ->]. done.
  - rewrite <- (length_fmap fst (mock_comparison ids)).
    change (fst <$> mock_comparison ids) with (keys (mock_comparison ids)).
    rewrite keys_mock_comparison. clear.
    induction ids as [| x l IH]; simpl; [done |].
    pose proof (length_filter (fun y => y ≠ x) (first_occurrences l)). lia.
Qed.

Lemma mock_comparison_entries_witness :
  title (mock_structured_summary "p1.pdf") = "p1.pdf".
Proof.
  destruct (mock_comparison_entries ["p1.pdf"; "p2.pdf"; "p1.pdf"])
    as (_ & _ & Htitle & _).
  apply Htitle. vm_compute. left.
Defined.

(** ** Selection store, continued *)

(** Storing the value a key already has changes nothing. *)
Lemma set_same {V} (k : string) (v : V) (d : dict V) :
  get k d = Some v -> set k v d = d.
Proof.
  induction d as [| [k0 v0] d IH]; simpl; [done |].
  case_decide as Hk.
  - by intros [= ->].
  - intros H. by rewrite IH.
Qed.

Lemma select_all_fixed (ids : list string) (sel : dict bool) :
  (forall x, x ∈ ids -> get x sel = Some true) -> select_all ids sel = sel.
Proof.
  unfold select_all. induction ids as [| p ps IH]; intros H; simpl; [done |].
  rewrite set_same by (apply H; left). apply IH.
  intros x Hx. apply H. by right.
Qed.

(** X14. "Select All" never deselects: in a store without repeated keys
    every id selected before is selected after, and so is every given id;
    the keys already present keep their places and the new ids follow in
    the order of their first occurrence.  On an empty store the selected
    list is the given sequence without its repetitions. *)
Theorem select_all_grows (ids : list string) (sel : dict bool) :
  NoDup (keys sel) ->
  (forall x, x ∈ selected_list sel -> x ∈ selected_list (select_all ids sel))
  /\ (forall x, x ∈ ids -> x ∈ selected_list (select_all ids sel))
  /\ keys (select_all ids sel)
     = keys sel ++ filter (fun y => y ∉ keys sel) (first_occurrences ids)
  /\ selected_list (select_all ids empty) = first_occurrences ids.
Proof.
  intros Hnd.
  assert (NoDup (keys (select_all ids sel))) as Hnd'
    by (rewrite keys_select_all; by apply NoDup_foldl_enlist).
  split_and!.
  - intros x. rewrite !elem_of_selected_list by done.
    rewrite get_select_all. by case_decide.
  - intros x Hx. rewrite elem_of_selected_list by done.
    rewrite get_select_all. by rewrite decide_True.
  - by rewrite keys_select_all, foldl_enlist_first_occurrences.
  - rewrite selected_list_filter
      by (rewrite keys_select_all; apply NoDup_foldl_enlist, NoDup_nil_2).
    rewrite keys_select_all, foldl_enlist_first_occurrences. simpl.
    rewrite (filter_all (fun y => y ∉ [])) by (intros ? _; apply not_elem_of_nil).
    apply filter_all. intros x Hx. rewrite get_select_all.
    rewrite decide_True; [done |]. by apply elem_of_first_occurrences.
Qed.

Lemma select_all_grows_witness :
  keys (select_all ["p3.pdf"; "p1.pdf"; "p3.pdf"]
          [("p1.pdf", false); ("p2.pdf", true)])
  = keys [("p1.pdf", false); ("p2.pdf", true)]
    ++ filter (fun y => y ∉ keys [("p1.pdf", false); ("p2.pdf", true)])
         (first_occurrences ["p3.pdf"; "p1.pdf"; "p3.pdf"]).
Proof.
  apply (select_all_grows ["p3.pdf"; "p1.pdf"; "p3.pdf"]
           [("p1.pdf", false); ("p2.pdf", true)]).
  compute_done.
Defined.

(** X15. "Select All" is idempotent: a second click with the same papers
    leaves the store, the order of its keys included, as the first click
    left it. *)
Theorem select_all_idempotent (ids : list string) (sel : dict bool) :
  select_all ids (select_all ids sel) = select_all ids sel.
Proof.
  apply select_all_fixed. intros x Hx.
  rewrite get_select_all. by rewrite decide_True.
Qed.

Lemma selected_list_app (d1 d2 : dict bool) :
  selected_list (d1 ++ d2) = selected_list d1 ++ selected_list d2.
Proof. unfold selected_list, items. by rewrite filter_app, fmap_app. Qed.

(** X16. The effect of a checkbox write on the selected list, in a store
    without repeated keys.  Writing false removes the id and keeps the
    order of the others.  Writing true appends an id the store has never
    held; an id the store holds appears at the place of its key, not at
    the end. *)
Theorem toggle_selected_list (paper : string) (sel : dict bool) :
  NoDup (keys sel) ->
  selected_list (toggle paper false sel)
  = filter (fun p => p ≠ paper) (selected_list sel)
  /\ (paper ∉ keys sel ->
      selected_list (toggle paper true sel) = selected_list sel ++ [paper])
  /\ (paper ∈ keys sel ->
      selected_list (toggle paper true sel)
      = filter (fun p => p = paper \/ get p sel = Some true) (keys sel)).
Proof.
  intros Hnd. unfold toggle.
  assert (forall chk, NoDup (keys (set paper chk sel))) as Hnd'
    by (intros chk; rewrite keys_set; by apply NoDup_enlist).
  split_and!.
  - rewrite !selected_list_filter by done.
    rewrite list_filter_filter, keys_set. unfold enlist.
    assert (forall l : list string,
               filter (fun p => get p (set paper false sel) = Some true) l
                      = filter (fun p => p ≠ paper /\ get p sel = Some true) l)
      as Hflt.
    { intros l. apply list_filter_iff. intros x. rewrite get_set.
      case_decide; intuition congruence. }
    rewrite Hflt. case_decide as Hin; [done |].
    rewrite filter_app, filter_cons_False, filter_nil, app_nil_r; tauto.
  - intros Hin. rewrite set_fresh by done. by rewrite selected_list_app.
  - intros Hin. rewrite selected_list_filter by done.
    rewrite keys_set. unfold enlist. rewrite decide_True by done.
    apply list_filter_iff. intros x. rewrite get_set.
    case_decide; intuition congruence.
Qed.

Lemma toggle_selected_list_witness :
  selected_list (toggle "p1.pdf" true [("p1.pdf", false); ("p2.pdf", true)])
  = filter (fun p => p = "p1.pdf"
                     \/ get p [("p1.pdf", false); ("p2.pdf", true)] = Some true)
      (keys [("p1.pdf", false); ("p2.pdf", true)]).
Proof.
  destruct (toggle_selected_list "p1.pdf"
              [("p1.pdf", false); ("p2.pdf", true)]) as (_ & _ & Hheld).
  - compute_done.
  - apply Hheld. compute_done.
Defined.

(** ** Rendering the cards, continued *)

Lemma cards_multi_get (w : Widgets) (papers : list string) (sel : dict bool)
    (p : string) :
  selection_mode w = Multi -> NoDup papers ->
  get p (foldl (card w) sel papers)
  = if decide (p ∈ papers)
    then Some (checkbox w p (default false (get p sel)))
    else get p sel.
Proof.
  intros Hm. revert sel.
  induction papers as [| q ps IH]; intros sel Hnd; cbn [foldl].
  - rewrite decide_False; [done | apply not_elem_of_nil].
  - apply NoDup_cons in Hnd as [Hq Hnd]. rewrite (IH _ Hnd).
    unfold card. rewrite Hm. unfold toggle. rewrite get_set.
    destruct (decide (p ∈ ps)) as [Hin | Hin].
    + rewrite (decide_True (P := p ∈ q :: ps)) by (by right).
      rewrite decide_False; [done |]. by intros ->.
    + destruct (decide (p = q)) as [-> | Hne].
      * rewrite decide_True; [done | left].
      * rewrite decide_False; [done |]. rewrite elem_of_cons. tauto.
Qed.

Lemma cards_multi_keys (w : Widgets) (papers : list string) (sel : dict bool) :
  selection_mode w = Multi ->
  keys (foldl (card w) sel papers) = foldl enlist (keys sel) papers.
Proof.
  intros Hm. revert sel.
  induction papers as [| q ps IH]; intros sel; simpl; [done |].
  rewrite IH. unfold card. rewrite Hm. unfold toggle. by rewrite keys_set.
Qed.

(** X17. After a run in Multi mode over papers with distinct names, the
    flag of every uploaded paper is the value its checkbox returned, the
    checkbox having been offered the flag left by "Select All" and "Clear
    Selection" as its default; the flag of an id that is no longer
    uploaded is not touched by the cards. *)
Theorem render_multi_flags (w : Widgets) (sel : dict bool) (p : string) :
  selection_mode w = Multi -> NoDup (uploaded_files w) ->
  get p (render_selection w sel)
  = let sel1 := if select_all_btn w
                then select_all (uploaded_files w) sel else sel in
    let sel2 := if clear_btn w then clear_selection else sel1 in
    if decide (p ∈ uploaded_files w)
    then Some (checkbox w p (default false (get p sel2)))
    else get p sel2.
Proof. intros Hm Hnd. unfold render_selection. by apply cards_multi_get. Qed.

Lemma render_multi_flags_witness :
  get "old.pdf"
    (render_selection (page Multi (fun _ => false) EmptyString)
       [("old.pdf", true)])
  = Some true.
Proof.
  rewrite (render_multi_flags (page Multi (fun _ => false) EmptyString)
             [("old.pdf", true)] "old.pdf").
  - reflexivity.
  - reflexivity.
  - compute_done.
Defined.

(** X18. "Clear Selection" is applied after "Select All" and before the
    cards.  In Single mode with no card clicked it leaves the store empty,
    whether or not "Select All" was clicked in the same run.  In Multi
    mode the cards then write their checkboxes, each offered False as its
    default, so the selected list is the uploaded papers whose checkbox
    still returns true, in upload order. *)
Theorem clear_then_cards (w : Widgets) (sel : dict bool) :
  clear_btn w = true ->
  (selection_mode w = Single -> (forall p, single_btn w p = false) ->
   render_selection w sel = empty)
  /\ (selection_mode w = Multi -> NoDup (uploaded_files w) ->
      selected_list (render_selection w sel)
      = filter (fun p => checkbox w p false = true) (uploaded_files w)).
Proof.
  intros Hc. unfold render_selection. rewrite Hc. split.
  - intros Hm Hb. by apply cards_single_idle.
  - intros Hm Hnd.
    assert (keys (foldl (card w) clear_selection (uploaded_files w))
            = uploaded_files w) as Hkeys.
    { rewrite cards_multi_keys, foldl_enlist_first_occurrences by done.
      simpl. rewrite filter_all by (intros ? _; apply not_elem_of_nil).
      by apply first_occurrences_NoDup. }
    rewrite selected_list_filter by (by rewrite Hkeys).
    rewrite Hkeys. apply filter_agree. intros x Hx.
    rewrite cards_multi_get by done. rewrite decide_True by done.
    simpl. split; [by intros [= ->] | by intros ->].
Qed.

Lemma clear_then_cards_witness :
  render_selection
    (click_select_all (click_clear (page Single (fun _ => false) EmptyString)))
    [("p1.pdf", true); ("p2.pdf", true)]
  = empty
  /\ selected_list
       (render_selection
          (click_clear (page Multi (fun p => bool_decide (p = "p2.pdf"))
                          EmptyString))
          [("p1.pdf", true); ("p2.pdf", true)])
     = filter (fun p => bool_decide (p = "p2.pdf") = true) ["p1.pdf"; "p2.pdf"].
Proof.
  split.
  - apply (clear_then_cards
             (click_select_all
                (click_clear (page Single (fun _ => false) EmptyString)))).
    + reflexivity.
    + reflexivity.
    + intros p. reflexivity.
  - apply (clear_then_cards
             (click_clear (page Multi (fun p => bool_decide (p = "p2.pdf"))
                             EmptyString))).
    + reflexivity.
    + reflexivity.
    + compute_done.
Defined.

Lemma comprehension_fixed {V} (f : string -> V) (ps : list string)
    (d : dict V) :
  (forall x, x ∈ ps -> get x d = Some (f x)) ->
  foldl (fun d p => set p (f p) d) d ps = d.
Proof.
  induction ps as [| p ps IH]; intros H; simpl; [done |].
  rewrite set_same by (apply H; left). apply IH.
  intros x Hx. apply H. by right.
Qed.

(** X20. In Multi mode, when the checkboxes return what the user set
    whatever default they are offered, a second run with the same widget
    values and no selection button clicked leaves the store exactly as
    the first run left it. *)
Theorem rerun_multi_idempotent (w : Widgets) (sel : dict bool) :
  selection_mode w = Multi ->
  select_all_btn w = false -> clear_btn w = false ->
  (forall p d, checkbox w p d = checkbox w p false) ->
  render_selection w (render_selection w sel) = render_selection w sel.
Proof.
  intros Hm Ha Hc Hchk. unfold render_selection. rewrite Ha, Hc.
  assert (forall s ps,
             foldl (card w) s ps
             = foldl (fun d p => set p (checkbox w p false) d) s ps) as Hcards.
  { intros s ps. revert s. induction ps as [| p ps IH]; intros s; simpl;
      [done |].
    rewrite IH. unfold card, toggle. by rewrite Hm, Hchk. }
  rewrite !Hcards. apply comprehension_fixed. intros x Hx.
  rewrite get_comprehension. by rewrite decide_True.
Qed.

Lemma rerun_multi_idempotent_witness :
  render_selection (page Multi (fun p => bool_decide (p = "p2.pdf")) EmptyString)
    (render_selection
       (page Multi (fun p => bool_decide (p = "p2.pdf")) EmptyString)
       [("old.pdf", true)])
  = render_selection
      (page Multi (fun p => bool_decide (p = "p2.pdf")) EmptyString)
      [("old.pdf", true)].
Proof.
  apply (rerun_multi_idempotent
           (page Multi (fun p => bool_decide (p = "p2.pdf")) EmptyString)
           [("old.pdf", true)]).
  - reflexivity.
  - reflexivity.
  - reflexivity.
  - intros p d. reflexivity.
Defined.

(** ** Card layout *)

Lemma column_index_in_range (ncols i : nat) :
  (0 < ncols)%nat -> column_index ncols i = Some (i mod ncols)%nat.
Proof.
  intros Hn. unfold column_index.
  destruct (Nat.eqb_spec ncols 0) as [-> | _]; [lia |].
  pose proof (Nat.mod_upper_bound i ncols ltac:(lia)) as Hlt.
  apply Nat.ltb_lt in Hlt. by rewrite Hlt.
Qed.

(** X19. The layout of the cards never divides by zero and never indexes
    a column that does not exist: with up to four papers the card of
    paper number [i] goes to column [i], and with more papers the cards go
    round the four columns in turn. *)
Theorem card_columns_round_robin (paper_items : list string) :
  card_columns paper_items
  = Some ((fun i => if (length paper_items <=? 4)%nat then i
                    else (i mod 4)%nat)
            <$> seq 0 (length paper_items)).
Proof.
  unfold card_columns. destruct paper_items as [| p ps]; [done |].
  apply mapM_total. intros i Hi.
  apply list_elem_of_In, in_seq in Hi. unfold columns_count.
  rewrite column_index_in_range by (simpl; lia). f_equal.
  destruct (Nat.leb_spec (length (p :: ps)) 4) as [Hle | Hgt].
  - rewrite Nat.min_r by lia. apply Nat.mod_small. lia.
  - rewrite Nat.min_l by lia. done.
Qed.

Example card_columns_six :
  card_columns ["a"; "b"; "c"; "d"; "e"; "f"]
  = Some [0; 1; 2; 3; 0; 1]%nat.
Proof. reflexivity. Qed.

(** ** Submit, continued *)

(** X11. With one id selected, a question that names a comparison still
    opens the comparison view, over that one id. *)
Theorem submit_one_compares (p q : string) (st : Session) :
  blank q = false -> occurs_ignoring_case "compare" q ->
  on_ask [p] q st
  = Some (set_last_query st
            {| lq_question := q; lq_selected := [p]; lq_comparison := true |},
          [SuccessComparison; Visualization;
           JsonComparison [(p, mock_structured_summary p)];
           Review (mock_structured_summary p)]).
Proof.
  intros Hq Hocc. unfold on_ask. simpl. rewrite Hq.
  rewrite comparison_intent_lowered.
  apply contains_lower in Hocc; [| done]. rewrite Hocc, orb_true_r.
  by rewrite comparison_view_total.
Qed.

Lemma submit_one_compares_witness :
  on_ask ["p1.pdf"] "Compare methods" new_session
  = Some (set_last_query new_session
            {| lq_question := "Compare methods"; lq_selected := ["p1.pdf"];
               lq_comparison := true |},
          [SuccessComparison; Visualization;
           JsonComparison [("p1.pdf", mock_structured_summary "p1.pdf")];
           Review (mock_structured_summary "p1.pdf")]).
Proof.
  apply (submit_one_compares "p1.pdf" "Compare methods" new_session).
  - reflexivity.
  - exists EmptyString, "Compare", " methods". split; [reflexivity |].
    constructor; [right; left; vm_compute; split; [split |]; congruence |].
    repeat (constructor; [left; reflexivity |]). constructor.
Defined.

(** X12. The notices of a run and the validation of a submit agree: for
    the same selected list and question a submit reports a failure
    exactly when one of the two notices is shown. *)
Theorem submit_fails_iff_notice (selected_list : list string) (q : string)
    (st st' : Session) (out : list Element) :
  on_ask selected_list q st = Some (st', out) ->
  reported out ≠ [] <-> notices selected_list q ≠ [].
Proof.
  unfold notices. destruct (decide (selected_list = [])) as [-> | Hsl].
  { simpl. intros [= _ <-]. done. }
  rewrite (bool_decide_eq_false_2 _ Hsl). destruct (blank q) eqn:Hq.
  - unfold on_ask. rewrite (bool_decide_eq_false_2 _ Hsl), Hq.
    intros [= _ <-]. done.
  - destruct (on_ask_passes selected_list q st Hsl Hq) as (out1 & -> & Hrep & _).
    intros [= _ <-]. rewrite Hrep. done.
Qed.

Lemma submit_fails_iff_notice_witness :
  reported [ErrEmptyQuestion] ≠ [] <-> notices ["p1.pdf"] "  " ≠ [].
Proof.
  apply (submit_fails_iff_notice ["p1.pdf"] "  " new_session new_session).
  reflexivity.
Defined.
